(** * Voice-turn orchestrator of my-voice-app: model and verification

    The development embeds the React component [App] (src/App.tsx, in its
    two revisions) and the Netlify function [handler]
    (netlify/functions/getAiResponse.ts) as Rocq functions over an explicit
    world state, and proves the properties the specification states about
    them.

    Conventions.
    - A JavaScript string is a Rocq [string] holding its UTF-8 bytes.
      Equality ([===]), emptiness and concatenation of well-formed strings
      coincide with those of the byte strings; [trim] is written out on the
      UTF-8 encodings of the ECMAScript white space and line terminator code
      points.
    - Values whose static type is [any] (parsed JSON bodies) are [JsValue]s.
    - Calls that leave the component (console, speech engine, network,
      speech recognition) are appended, in program order, to the [log] of
      the world. *)

From Stdlib Require Import String Ascii List Bool Arith ZArith Lia.
From Stdlib Require Import DecimalString.

Import ListNotations.

Set Warnings "-register-all".

Local Open Scope list_scope.
Local Open Scope string_scope.

(** ** JavaScript values and strings *)

Module Js.

(** Parsed JSON, plus [undefined] for an absent property.  Numbers are
    the integers (of magnitude below 10^21, the range in which the
    ECMAScript rendering is the plain decimal one). *)
Inductive JsValue : Type :=
| JUndefined
| JNull
| JBool (b : bool)
| JNum (z : Z)
| JStr (s : string)
| JArr (items : list JsValue)
| JObj (fields : list (string * JsValue)).

(** ECMAScript ToBoolean. *)
Definition truthy (v : JsValue) : bool :=
  match v with
  | JUndefined | JNull => false
  | JBool b => b
  | JNum z => negb (Z.eqb z 0)
  | JStr s => negb (String.eqb s "")
  | JArr _ | JObj _ => true
  end.

Definition string_of_Z (z : Z) : string :=
  NilZero.string_of_int (Z.to_int z).

(** ECMAScript ToString, as applied by template literals and by the
    [SpeechSynthesisUtterance] constructor. *)
Fixpoint to_string (v : JsValue) : string :=
  match v with
  | JUndefined => "undefined"
  | JNull => "null"
  | JBool true => "true"
  | JBool false => "false"
  | JNum z => string_of_Z z
  | JStr s => s
  | JArr items =>
      (fix join (l : list JsValue) : string :=
         match l with
         | [] => ""
         | x :: r =>
             let sx := match x with
                       | JUndefined | JNull => ""
                       | _ => to_string x
                       end in
             match r with
             | [] => sx
             | _ :: _ => sx ++ "," ++ join r
             end
         end) items
  | JObj _ => "[object Object]"
  end.

Fixpoint assoc (k : string) (fields : list (string * JsValue)) : JsValue :=
  match fields with
  | [] => JUndefined
  | (k', v) :: r => if String.eqb k k' then v else assoc k r
  end.

(** Property read [v.k] for a key [k] that is no built-in property of
    strings or arrays (the code reads only [response], [error] and
    [transcript]).  [None] is the TypeError raised on [null] and
    [undefined]. *)
Definition get (v : JsValue) (k : string) : option JsValue :=
  match v with
  | JUndefined | JNull => None
  | JObj fields => Some (assoc k fields)
  | _ => Some JUndefined
  end.

(** Optional chaining [v?.k]. *)
Definition get_opt (v : JsValue) (k : string) : JsValue :=
  match get v k with
  | Some x => x
  | None => JUndefined
  end.

(** [a || b]. *)
Definition or_else (a b : JsValue) : JsValue :=
  if truthy a then a else b.

Definition string_of_nat (n : nat) : string :=
  NilZero.string_of_uint (Nat.to_uint n).

(** *** White space and [String.prototype.trim] *)

Definition byte (c : ascii) : nat := nat_of_ascii c.

(** TAB, LF, VT, FF, CR, SP. *)
Definition ws1 (c : ascii) : bool :=
  let n := byte c in
  (((9 <=? n) && (n <=? 13)) || (n =? 32))%nat.

(** U+00A0 (C2 A0). *)
Definition ws2 (c1 c2 : ascii) : bool :=
  ((byte c1 =? 194) && (byte c2 =? 160))%nat.

(** U+1680 (E1 9A 80), U+2000..U+200A (E2 80 80..8A), U+2028, U+2029
    (E2 80 A8, A9), U+202F (E2 80 AF), U+205F (E2 81 9F), U+3000
    (E3 80 80), U+FEFF (EF BB BF). *)
Definition ws3 (c1 c2 c3 : ascii) : bool :=
  let a := byte c1 in
  let b := byte c2 in
  let c := byte c3 in
  (((a =? 225) && (b =? 154) && (c =? 128))
   || ((a =? 226) && (b =? 128)
       && (((128 <=? c) && (c <=? 138))
           || (c =? 168) || (c =? 169) || (c =? 175)))
   || ((a =? 226) && (b =? 129) && (c =? 159))
   || ((a =? 227) && (b =? 128) && (c =? 128))
   || ((a =? 239) && (b =? 187) && (c =? 191)))%nat.

(** Every code point of the string is white space. *)
Fixpoint blank (s : string) : bool :=
  match s with
  | EmptyString => true
  | String c1 r1 =>
      if ws1 c1 then blank r1 else
      match r1 with
      | EmptyString => false
      | String c2 r2 =>
          if ws2 c1 c2 then blank r2 else
          match r2 with
          | EmptyString => false
          | String c3 r3 => if ws3 c1 c2 c3 then blank r3 else false
          end
      end
  end.

Fixpoint trimStart (s : string) : string :=
  match s with
  | EmptyString => EmptyString
  | String c1 r1 =>
      if ws1 c1 then trimStart r1 else
      match r1 with
      | EmptyString => s
      | String c2 r2 =>
          if ws2 c1 c2 then trimStart r2 else
          match r2 with
          | EmptyString => s
          | String c3 r3 => if ws3 c1 c2 c3 then trimStart r3 else s
          end
      end
  end.

Fixpoint trimEnd (s : string) : string :=
  match s with
  | EmptyString => EmptyString
  | String c r => if blank s then EmptyString else String c (trimEnd r)
  end.

Definition trim (s : string) : string := trimEnd (trimStart s).

(** [hay.includes(needle)]. *)
Definition includes (needle hay : string) : bool :=
  match String.index 0 needle hay with
  | Some _ => true
  | None => false
  end.

End Js.

Import Js.

(** ** The browser services the component talks to *)

Module Speech.

(** [window.speechSynthesis], after the Web Speech API: a queue of
    utterances whose head is the one being spoken once it has begun.
    [speak] appends to the queue; [cancel] removes every utterance and
    ceases the current one at once. *)
Record SpeechSynthesis : Type := {
  speaking : bool;
  queue : list string
}.

Definition cancel (sy : SpeechSynthesis) : SpeechSynthesis :=
  {| speaking := false; queue := [] |}.

Definition speak (text : string) (sy : SpeechSynthesis) : SpeechSynthesis :=
  {| speaking := speaking sy; queue := (queue sy ++ [text])%list |}.

(** The engine begins the utterance at the head of the queue. *)
Definition begin (sy : SpeechSynthesis) : SpeechSynthesis :=
  match queue sy with
  | [] => sy
  | _ :: _ => {| speaking := true; queue := queue sy |}
  end.

(** The utterance being spoken ends (naturally or by an engine error). *)
Definition finish (sy : SpeechSynthesis) : SpeechSynthesis :=
  if speaking sy then {| speaking := false; queue := tl (queue sy) |} else sy.

End Speech.

Module Net.

(** A value caught by [catch]: an [Error] instance with its message, or
    anything else. *)
Inductive Thrown : Type :=
| ThrownError (message : string)
| ThrownOther.

(** Outcome of [response.json()]. *)
Inductive JsonResult : Type :=
| JsonRejects (e : Thrown)
| JsonResolves (v : JsValue).

Record Response : Type := {
  status : nat;
  statusText : string;
  json : JsonResult
}.

(** [response.ok] of the Fetch standard: the status is in 200..299. *)
Definition ok (r : Response) : bool :=
  ((200 <=? status r) && (status r <=? 299))%nat.

(** Outcome of [await fetch(...)]. *)
Inductive FetchOutcome : Type :=
| FetchRejects (e : Thrown)
| FetchResolves (r : Response).

(** Message of the TypeError V8 raises for [data.response] on a body
    that parsed to [null]. *)
Definition null_read_message : string :=
  "Cannot read properties of null (reading 'response')".

End Net.

Import Speech Net.

(** ** The world: component state, hook values, services, effect log *)

Inductive Level : Type := LogLevel | WarnLevel | ErrorLevel.

(** A call that leaves the component.  [Console] keeps the level and the
    literal first argument of the call. *)
Inductive Effect : Type :=
| Console (level : Level) (label : string)
| SynthCancel
| SynthSpeak (text : string)
| Fetch (url : string) (body : JsValue)
| RecognitionStart (continuous : bool) (language : string)
| RecognitionStop
| RecognitionResetTranscript
| Uncaught (what : string).   (* an exception that leaves the handler *)

(** The [useState] cells and the [useRef] cell of [App]. *)
Record Component : Type := {
  textToSpeak : string;
  isSynthesizing : bool;
  isAiResponding : bool;
  aiResponseText : JsValue;
  lastProcessedTranscript : option string
}.

(** The values returned by [useSpeechRecognition]. *)
Record Recognition : Type := {
  transcript : string;
  listening : bool;
  browserSupportsSpeechRecognition : bool;
  isMicrophoneAvailable : bool;
  finalTranscript : string
}.

Record World : Type := {
  app : Component;
  recog : Recognition;
  synth : option SpeechSynthesis;    (* [window.speechSynthesis], if any *)
  inflight : list string;            (* transcripts of the pending fetches *)
  log : list Effect
}.

(** The two revisions of [src/App.tsx] in the repository: the one without
    and the one with the [aiResponseText] state.  In the first the cell is
    never written. *)
Inductive Revision : Type :=
| Plain      (* src/App.tsx *)
| WithReply. (* the revision that displays the last reply *)

(** *** Field updates *)

Definition with_textToSpeak (v : string) (c : Component) : Component :=
  {| textToSpeak := v;
     isSynthesizing := isSynthesizing c;
     isAiResponding := isAiResponding c;
     aiResponseText := aiResponseText c;
     lastProcessedTranscript := lastProcessedTranscript c |}.

Definition with_isSynthesizing (v : bool) (c : Component) : Component :=
  {| textToSpeak := textToSpeak c;
     isSynthesizing := v;
     isAiResponding := isAiResponding c;
     aiResponseText := aiResponseText c;
     lastProcessedTranscript := lastProcessedTranscript c |}.

Definition with_isAiResponding (v : bool) (c : Component) : Component :=
  {| textToSpeak := textToSpeak c;
     isSynthesizing := isSynthesizing c;
     isAiResponding := v;
     aiResponseText := aiResponseText c;
     lastProcessedTranscript := lastProcessedTranscript c |}.

Definition with_aiResponseText (v : JsValue) (c : Component) : Component :=
  {| textToSpeak := textToSpeak c;
     isSynthesizing := isSynthesizing c;
     isAiResponding := isAiResponding c;
     aiResponseText := v;
     lastProcessedTranscript := lastProcessedTranscript c |}.

Definition with_lastProcessedTranscript (v : option string) (c : Component)
  : Component :=
  {| textToSpeak := textToSpeak c;
     isSynthesizing := isSynthesizing c;
     isAiResponding := isAiResponding c;
     aiResponseText := aiResponseText c;
     lastProcessedTranscript := v |}.

Definition with_app (f : Component -> Component) (w : World) : World :=
  {| app := f (app w); recog := recog w; synth := synth w;
     inflight := inflight w; log := log w |}.

Definition with_recog (f : Recognition -> Recognition) (w : World) : World :=
  {| app := app w; recog := f (recog w); synth := synth w;
     inflight := inflight w; log := log w |}.

Definition with_synth (f : SpeechSynthesis -> SpeechSynthesis) (w : World)
  : World :=
  {| app := app w; recog := recog w; synth := option_map f (synth w);
     inflight := inflight w; log := log w |}.

Definition with_inflight (f : list string -> list string) (w : World) : World :=
  {| app := app w; recog := recog w; synth := synth w;
     inflight := f (inflight w); log := log w |}.

Definition with_log (f : list Effect -> list Effect) (w : World) : World :=
  {| app := app w; recog := recog w; synth := synth w;
     inflight := inflight w; log := f (log w) |}.

(** *** A state monad over the world *)

Definition M (A : Type) : Type := World -> A * World.

Definition ret {A : Type} (a : A) : M A := fun w => (a, w).

Definition bind {A B : Type} (m : M A) (k : A -> M B) : M B :=
  fun w => let (a, w') := m w in k a w'.

Definition read {A : Type} (f : World -> A) : M A := fun w => (f w, w).

Definition modify (f : World -> World) : M unit := fun w => (tt, f w).

Definition exec {A : Type} (m : M A) (w : World) : World := snd (m w).

Declare Scope js_scope.
Delimit Scope js_scope with js.
Notation "x <- m ;; k" := (bind m (fun x => k))
  (at level 61, m at next level, right associativity) : js_scope.
Notation "m ;; k" := (bind m (fun _ => k))
  (at level 61, right associativity) : js_scope.
Local Open Scope js_scope.

Definition when (b : bool) (m : M unit) : M unit :=
  if b then m else ret tt.

Definition emit (e : Effect) : M unit :=
  modify (with_log (fun l => (l ++ [e])%list)).

Definition console (level : Level) (label : string) : M unit :=
  emit (Console level label).

(** ** The component [App] *)

Section App.

Variable rev : Revision.

(** *** State setters and service calls *)

Definition setTextToSpeak (v : string) : M unit :=
  modify (with_app (with_textToSpeak v)).

Definition setIsSynthesizing (v : bool) : M unit :=
  modify (with_app (with_isSynthesizing v)).

Definition setIsAiResponding (v : bool) : M unit :=
  modify (with_app (with_isAiResponding v)).

(** Present in the [WithReply] revision only. *)
Definition setAiResponseText (v : JsValue) : M unit :=
  match rev with
  | Plain => ret tt
  | WithReply => modify (with_app (with_aiResponseText v))
  end.

Definition setLastProcessedTranscript (v : option string) : M unit :=
  modify (with_app (with_lastProcessedTranscript v)).

Definition synth_cancel : M unit :=
  emit SynthCancel ;; modify (with_synth Speech.cancel).

Definition synth_speak (text : string) : M unit :=
  emit (SynthSpeak text) ;; modify (with_synth (Speech.speak text)).

(** [resetTranscript] of the hook empties the live and the final
    transcript. *)
Definition resetTranscript : M unit :=
  emit RecognitionResetTranscript ;;
  modify (with_recog (fun r =>
    {| transcript := "";
       listening := listening r;
       browserSupportsSpeechRecognition := browserSupportsSpeechRecognition r;
       isMicrophoneAvailable := isMicrophoneAvailable r;
       finalTranscript := "" |})).

(** [fetch] with method POST: the request leaves, and the caller is
    suspended until it settles. *)
Definition fetch (url : string) (text : string) : M unit :=
  emit (Fetch url (JObj [("transcript", JStr text)])) ;;
  modify (with_inflight (fun l => (l ++ [text])%list)).

(** *** [speak] *)

Definition speak (text : JsValue) : M unit :=
  sy <- read synth ;;
  match negb (truthy text), sy with
  | false, Some s =>
      when (speaking s)
        (console LogLevel "Already speaking, cancelling previous utterance." ;;
         synth_cancel) ;;
      (* utterance = new SpeechSynthesisUtterance(text); its onstart, onend
         and onerror callbacks are [utterance_onstart] etc. below *)
      console LogLevel "Attempting to speak:" ;;
      synth_speak (to_string text)
  | _, _ =>
      console WarnLevel "Speech synthesis not available or text is empty."
  end.

Definition utterance_onstart : M unit := setIsSynthesizing true.

Definition utterance_onend : M unit := setIsSynthesizing false.

Definition utterance_onerror : M unit :=
  console ErrorLevel "SpeechSynthesis Error:" ;;
  setIsSynthesizing false.

(** *** [getAiResponse] *)

(** [lastProcessedTranscript.current === text]. *)
Definition same_as_last (memo : option string) (text : string) : bool :=
  match memo with
  | Some last => String.eqb last text
  | None => false
  end.

(** The function up to its first [await]. *)
Definition getAiResponse (text : string) : M unit :=
  if negb (truthy (JStr text)) || String.eqb (trim text) "" then ret tt
  else
    memo <- read (fun w => lastProcessedTranscript (app w)) ;;
    if same_as_last memo text then
      console LogLevel "Skipping duplicate final transcript:"
    else
      setLastProcessedTranscript (Some text) ;;
      console LogLevel "Sending to AI function:" ;;
      setIsAiResponding true ;;
      fetch "/.netlify/functions/getAiResponse" text.

(** The [try] block after the fetch has settled; [inr e] is [throw e]. *)
Definition getAiResponse_try (o : FetchOutcome) : M (unit + Thrown) :=
  match o with
  | FetchRejects e => ret (inr e)
  | FetchResolves response =>
      if negb (ok response) then
        let errorBody :=
          match json response with
          | JsonResolves v => v
          | JsonRejects _ =>
              JObj [("error",
                     JStr "Failed to parse error response from function.")]
          end in
        ret (inr (ThrownError
          ("Function Error (" ++ string_of_nat (status response) ++ "): "
           ++ to_string (or_else (get_opt errorBody "error")
                                 (JStr (statusText response))))))
      else
        match json response with
        | JsonRejects e => ret (inr e)
        | JsonResolves data =>
            match get data "response" with
            | None => ret (inr (ThrownError null_read_message))
            | Some r =>
                if truthy r then
                  console LogLevel "AI Response received:" ;;
                  setAiResponseText r ;;
                  speak r ;;
                  ret (inl tt)
                else
                  ret (inr (ThrownError
                    "Received success status but no valid response field from function."))
            end
        end
  end.

Definition getAiResponse_catch (error : Thrown) : M unit :=
  console ErrorLevel "Error fetching AI response:" ;;
  feedbackMessage <-
    match error with
    | ThrownError message =>
        ret ("Sorry, I encountered an error: " ++ message)
    | ThrownOther =>
        console LogLevel "Caught a non-Error value in getAiResponse:" ;;
        ret "Sorry, I encountered an unknown error trying to respond."
    end ;;
  setAiResponseText (JStr "") ;;
  speak (JStr feedbackMessage).

(** The function from the settlement of the fetch to its end: [try],
    [catch], [finally].  The later [await response.json()] is not a
    scheduling point of the model: up to the call of [speak] the
    continuation neither reads nor writes the world, so events that arrive
    in between commute with it. *)
Definition getAiResponse_resume (o : FetchOutcome) : M unit :=
  r <- getAiResponse_try o ;;
  match r with
  | inl _ => ret tt
  | inr e => getAiResponse_catch e
  end ;;
  setIsAiResponding false.

(** *** The effect hook and the handlers *)

Definition effect : M unit :=
  l <- read (fun w => listening (recog w)) ;;
  ft <- read (fun w => finalTranscript (recog w)) ;;
  when (negb l && truthy (JStr ft)) (getAiResponse ft).

Definition handleStartListening : M unit :=
  resetTranscript ;;
  setLastProcessedTranscript None ;;
  setAiResponseText (JStr "") ;;
  mic <- read (fun w => isMicrophoneAvailable (recog w)) ;;
  if negb mic then
    speak (JStr "Cannot start listening, microphone is not available.")
  else
    sy <- read synth ;;
    match sy with
    | None => emit (Uncaught "TypeError: synth is undefined")
    | Some s =>
        when (speaking s) synth_cancel ;;
        emit (RecognitionStart false "en-US")
    end.

Definition handleStopListening : M unit :=
  emit RecognitionStop.

Definition handleReset : M unit :=
  resetTranscript ;;
  setLastProcessedTranscript None ;;
  setAiResponseText (JStr "") ;;
  speak (JStr "Transcript reset").

Definition handleTextToSpeakChange (value : string) : M unit :=
  setTextToSpeak value.

Definition handleSpeakInput : M unit :=
  t <- read (fun w => textToSpeak (app w)) ;;
  speak (JStr t).

(** [disabled] of the three buttons, from the render. *)
Definition startDisabled (w : World) : bool := listening (recog w).

Definition stopDisabled (w : World) : bool := negb (listening (recog w)).

Definition speakDisabled (w : World) : bool :=
  negb (truthy (JStr (trim (textToSpeak (app w)))))
  || isSynthesizing (app w).

End App.

(** ** Events and runs *)

(** What can happen to the mounted component: clicks on its buttons, the
    voice commands registered with the hook, new values from the speech
    recognition hook, the settlement of a pending fetch, and the callbacks
    of the speech engine. *)
Inductive Event : Type :=
| ClickStart                               (* button Start Listening *)
| ClickStop                                (* button Stop Listening *)
| ClickReset                               (* button Reset Transcript *)
| ClickSpeak                               (* button Speak Text *)
| ChangeText (value : string)              (* typing in the text input *)
| CommandStop                              (* voice command 'stop listening' *)
| CommandReset                             (* voice command 'reset transcript' *)
| CaptureListening (interim : string)      (* hook: listening, live transcript *)
| CaptureFinalized (text : string)         (* hook: stopped, final transcript *)
| MicrophoneAvailability (available : bool)
| FetchSettled (i : nat) (o : FetchOutcome) (* the i-th pending fetch settles *)
| UtteranceStart                           (* engine: onstart *)
| UtteranceEnd                             (* engine: onend *)
| UtteranceError.                          (* engine: onerror *)

Definition remove_nth {A : Type} (i : nat) (l : list A) : list A :=
  (firstn i l ++ skipn (S i) l)%list.

Definition hook_listening (interim : string) (r : Recognition) : Recognition :=
  {| transcript := interim;
     listening := true;
     browserSupportsSpeechRecognition := browserSupportsSpeechRecognition r;
     isMicrophoneAvailable := isMicrophoneAvailable r;
     finalTranscript := finalTranscript r |}.

Definition hook_finalized (text : string) (r : Recognition) : Recognition :=
  {| transcript := text;
     listening := false;
     browserSupportsSpeechRecognition := browserSupportsSpeechRecognition r;
     isMicrophoneAvailable := isMicrophoneAvailable r;
     finalTranscript := text |}.

Definition hook_microphone (b : bool) (r : Recognition) : Recognition :=
  {| transcript := transcript r;
     listening := listening r;
     browserSupportsSpeechRecognition := browserSupportsSpeechRecognition r;
     isMicrophoneAvailable := b;
     finalTranscript := finalTranscript r |}.

Section Run.

Variable rev : Revision.

(** One event.  A click reaches its handler only when the button is
    enabled; a render with new hook values is followed by the effect. *)
Definition step (e : Event) : M unit :=
  match e with
  | ClickStart =>
      off <- read startDisabled ;;
      when (negb off) (handleStartListening rev)
  | ClickStop =>
      off <- read stopDisabled ;;
      when (negb off) handleStopListening
  | ClickReset => handleReset rev
  | ClickSpeak =>
      off <- read speakDisabled ;;
      when (negb off) handleSpeakInput
  | ChangeText value => handleTextToSpeakChange value
  | CommandStop => handleStopListening
  | CommandReset => handleReset rev
  | CaptureListening interim =>
      modify (with_recog (hook_listening interim)) ;; effect
  | CaptureFinalized text =>
      modify (with_recog (hook_finalized text)) ;; effect
  | MicrophoneAvailability b =>
      modify (with_recog (hook_microphone b))
  | FetchSettled i o =>
      pending <- read inflight ;;
      when (i <? length pending)%nat
        (modify (with_inflight (remove_nth i)) ;;
         getAiResponse_resume rev o)
  | UtteranceStart =>
      sy <- read synth ;;
      match sy with
      | Some s =>
          when (negb (speaking s) && negb (length (queue s) =? 0)%nat)
            (modify (with_synth Speech.begin) ;; utterance_onstart)
      | None => ret tt
      end
  | UtteranceEnd =>
      modify (with_synth Speech.finish) ;; utterance_onend
  | UtteranceError =>
      modify (with_synth Speech.finish) ;; utterance_onerror
  end.

Fixpoint run (es : list Event) : M unit :=
  match es with
  | [] => ret tt
  | e :: r => step e ;; run r
  end.

End Run.

(** *** The mounted component and the backend's answers *)

(** The state after mounting, from the initial values of the hooks, in a
    browser with a speech engine and an available microphone. *)
Definition initial_world : World :=
  {| app := {| textToSpeak := "";
               isSynthesizing := false;
               isAiResponding := false;
               aiResponseText := JStr "";
               lastProcessedTranscript := None |};
     recog := {| transcript := "";
                 listening := false;
                 browserSupportsSpeechRecognition := true;
                 isMicrophoneAvailable := true;
                 finalTranscript := "" |};
     synth := Some {| speaking := false; queue := [] |};
     inflight := [];
     log := [] |}.

(** The request body [getAiResponse] sends for a transcript. *)
Definition request_body (text : string) : JsValue :=
  JObj [("transcript", JStr text)].

(** HTTP 200 with body [{"response": reply}]. *)
Definition backend_reply (statusText reply : string) : FetchOutcome :=
  FetchResolves
    {| status := 200;
       statusText := statusText;
       json := JsonResolves (JObj [("response", JStr reply)]) |}.

(** HTTP [code] with body [{"error": message}]. *)
Definition backend_error (code : nat) (statusText message : string)
  : FetchOutcome :=
  FetchResolves
    {| status := code;
       statusText := statusText;
       json := JsonResolves (JObj [("error", JStr message)]) |}.

(** *** Reading the log *)

(** The transcripts sent to the backend, in order. *)
Fixpoint requests (l : list Effect) : list JsValue :=
  match l with
  | [] => []
  | Fetch _ body :: r => body :: requests r
  | _ :: r => requests r
  end.

(** The texts handed to the speech engine, in order. *)
Fixpoint spoken (l : list Effect) : list string :=
  match l with
  | [] => []
  | SynthSpeak text :: r => text :: spoken r
  | _ :: r => spoken r
  end.

(** The console warnings, in order. *)
Fixpoint warnings (l : list Effect) : list string :=
  match l with
  | [] => []
  | Console WarnLevel label :: r => label :: warnings r
  | _ :: r => warnings r
  end.

(** The listening sessions requested from the capture service. *)
Fixpoint session_starts (l : list Effect) : nat :=
  match l with
  | [] => 0
  | RecognitionStart _ _ :: r => S (session_starts r)
  | _ :: r => session_starts r
  end.

(** Events that neither start a session, nor reset, nor deliver a
    finalized utterance other than [t]. *)
Definition keeps_memo (t : string) (e : Event) : bool :=
  match e with
  | ClickStart | ClickReset | CommandReset => false
  | CaptureFinalized t' => String.eqb t' t
  | _ => true
  end.

(** The text of every utterance the engine holds. *)
Definition utterances (w : World) : list string :=
  match synth w with
  | Some s => queue s
  | None => []
  end.

(** OutputState [Speaking]: the engine reports an utterance in progress. *)
Definition is_speaking (w : World) : bool :=
  match synth w with
  | Some s => speaking s
  | None => false
  end.

(** ** Vocabulary of the statements *)

(** The log entries and the engine state one call of [speak] produces,
    given the engine it finds. *)
Definition speak_entries (s : SpeechSynthesis) (text : string) : list Effect :=
  ((if speaking s
    then [Console LogLevel "Already speaking, cancelling previous utterance.";
          SynthCancel]
    else [])
   ++ [Console LogLevel "Attempting to speak:"; SynthSpeak text])%list.

Definition speak_engine (s : SpeechSynthesis) (text : string)
  : SpeechSynthesis :=
  Speech.speak text (if speaking s then Speech.cancel s else s).

(** The text the [catch] block speaks. *)
Definition feedback_of (error : Thrown) : string :=
  match error with
  | ThrownError message => "Sorry, I encountered an error: " ++ message
  | ThrownOther => "Sorry, I encountered an unknown error trying to respond."
  end.

(** The guard will drop [t]: it is blank, or it is the memo. *)
Definition guarded (t : string) (w : World) : Prop :=
  trim t = "" \/ lastProcessedTranscript (app w) = Some t.

(** A world in which the engine is in the middle of one utterance and has
    another one waiting. *)
Definition speaking_world : World :=
  exec (run WithReply [ChangeText "first"; ClickSpeak; ChangeText "second";
                       ClickSpeak; UtteranceStart]) initial_world.

(** What [handleStartListening] has done when it reaches the microphone
    check. *)
Definition cleared (rev : Revision) (w : World) : World :=
  exec (resetTranscript ;;
        setLastProcessedTranscript None ;;
        setAiResponseText rev (JStr "")) w.

(** [cleared] acts on the component state and on the hook values alone. *)
Definition cleared_app (rev : Revision) (c : Component) : Component :=
  match rev with
  | Plain => with_lastProcessedTranscript None c
  | WithReply =>
      with_aiResponseText (JStr "") (with_lastProcessedTranscript None c)
  end.

Definition cleared_recog (r : Recognition) : Recognition :=
  {| transcript := "";
     listening := listening r;
     browserSupportsSpeechRecognition := browserSupportsSpeechRecognition r;
     isMicrophoneAvailable := isMicrophoneAvailable r;
     finalTranscript := "" |}.

(** ** The backend function [handler] *)

Module Backend.

(** [event.body] as the handler sees it: absent (null or empty), text
    that [JSON.parse] rejects with the given message, or parsed JSON. *)
Inductive EventBody : Type :=
| BodyMissing
| BodyUnparseable (message : string)
| BodyParsed (v : JsValue).

Record HandlerEvent : Type := {
  httpMethod : string;
  body : EventBody
}.

(** The value handed to [JSON.stringify] stands for the serialized body. *)
Record HandlerResponse : Type := {
  statusCode : nat;
  responseBody : JsValue;
  headers : list (string * string)
}.

Record ChatRequest : Type := {
  model : string;
  messages : list (string * string);   (* role, content *)
  max_tokens : nat;
  temperature_tenths : nat
}.

Record Message : Type := { content : option string }.

Record Choice : Type := { message : option Message }.

Record ChatCompletion : Type := { choices : list Choice }.

(** What the [catch] block reads of the value it caught. *)
Record Caught : Type := {
  caught_response : JsValue;        (* error.response *)
  caught_is_error : bool;           (* error instanceof Error *)
  caught_message : JsValue          (* error.message *)
}.

Inductive CreateOutcome : Type :=
| CreateRejects (e : Caught)
| CreateResolves (c : ChatCompletion).

(** The process environment of one invocation. *)
Record Env : Type := {
  api_key_configured : bool;                     (* process.env.OPENAI_API_KEY *)
  time : string;                                 (* now.toLocaleTimeString(...) *)
  today : string;                                (* now.toLocaleDateString(...) *)
  create : ChatRequest -> CreateOutcome          (* openai.chat.completions.create *)
}.

Definition new_Error (msg : string) : Caught :=
  {| caught_response := JUndefined;
     caught_is_error := true;
     caught_message := JStr msg |}.

Definition null_read_message : string :=
  "Cannot read properties of null (reading 'transcript')".

Definition location : string := "Dayton, Ohio, United States".

Definition systemContext (env : Env) : string :=
  "You are a helpful voice assistant embedded in a web application. Respond concisely and conversationally. Current location is "
  ++ location ++ ". Today is " ++ today env ++ ". The time is "
  ++ time env ++ ".".

(** Step 2 of the handler: the transcript of the request, or the error
    caught while reading it. *)
Definition read_transcript (b : EventBody) : string + Caught :=
  match b with
  | BodyMissing => inr (new_Error "Request body is missing.")
  | BodyUnparseable msg => inr (new_Error msg)
  | BodyParsed parsed =>
      match get parsed "transcript" with
      | None => inr (new_Error null_read_message)
      | Some (JStr t) =>
          if negb (truthy (JStr t)) || String.eqb (trim t) "" then
            inr (new_Error "Transcript is missing or invalid in request body.")
          else inl t
      | Some _ =>
          inr (new_Error "Transcript is missing or invalid in request body.")
      end
  end.

(** [completion.choices[0]?.message?.content?.trim()]. *)
Definition first_choice_text (c : ChatCompletion) : option string :=
  match choices c with
  | [] => None
  | ch :: _ =>
      match message ch with
      | None => None
      | Some m =>
          match content m with
          | None => None
          | Some s => Some (trim s)
          end
      end
  end.

(** The [catch] block of step 3. *)
Definition on_create_error (error : Caught) : HandlerResponse :=
  let errorMessage :=
    if truthy (caught_response error) then
      JStr ("OpenAI API Error: "
            ++ to_string
                 (or_else
                    (get_opt (get_opt (get_opt (caught_response error) "data")
                                      "error") "message")
                    (caught_message error)))
    else if caught_is_error error then caught_message error
    else JStr "Failed to get response from AI." in
  {| statusCode := 500;
     responseBody := JObj [("error", errorMessage)];
     headers := [] |}.

(** The argument of [openai.chat.completions.create]. *)
Definition chat_request (env : Env) (transcript : string) : ChatRequest :=
  {| model := "gpt-3.5-turbo";
     messages := [("system", systemContext env); ("user", transcript)];
     max_tokens := 100;
     temperature_tenths := 7 |}.

Definition handler (env : Env) (event : HandlerEvent) : HandlerResponse :=
  if negb (api_key_configured env) then
    {| statusCode := 500;
       responseBody := JObj [("error", JStr "OpenAI API key not configured.")];
       headers := [] |}
  else if negb (String.eqb (httpMethod event) "POST") then
    {| statusCode := 405;
       responseBody := JObj [("error", JStr "Please use the POST method.")];
       headers := [("Allow", "POST")] |}
  else
    match read_transcript (body event) with
    | inr error =>
        {| statusCode := 400;
           responseBody :=
             JObj [("error",
                    JStr "Invalid request body. Expecting JSON with a 'transcript' field.");
                   ("details", caught_message error)];
           headers := [] |}
    | inl transcript =>
        match create env (chat_request env transcript) with
        | CreateRejects error => on_create_error error
        | CreateResolves completion =>
            match first_choice_text completion with
            | Some aiResponse =>
                if truthy (JStr aiResponse) then
                  {| statusCode := 200;
                     responseBody := JObj [("response", JStr aiResponse)];
                     headers := [("Content-Type", "application/json")] |}
                else
                  on_create_error
                    (new_Error "Received an empty response from OpenAI.")
            | None =>
                on_create_error
                  (new_Error "Received an empty response from OpenAI.")
            end
        end
    end.

(** *** Sample invocations *)

(** A completion with one choice of the given content. *)
Definition completion_of (c : option string) : ChatCompletion :=
  {| choices := [{| message := Some {| content := c |} |}] |}.

(** An environment with a configured key whose model always answers with
    the given content. *)
Definition example_env (c : option string) : Env :=
  {| api_key_configured := true;
     time := "03:45 PM";
     today := "Saturday, March 29, 2025";
     create := fun _ => CreateResolves (completion_of c) |}.

(** The request the component sends for a transcript. *)
Definition post (transcript : string) : HandlerEvent :=
  {| httpMethod := "POST";
     body := BodyParsed (JObj [("transcript", JStr transcript)]) |}.

End Backend.

(** ** Vocabulary of the further properties *)

(** The world with the reply display set aside: the two revisions are
    compared on everything else. *)
Definition erase (w : World) : World :=
  with_app (with_aiResponseText JUndefined) w.

(** A request body the component may send: [{"transcript": t}] with a
    text [t] that is not blank. *)
Definition well_formed_request (b : JsValue) : Prop :=
  exists t : string, b = request_body t /\ trim t <> "".

(** The memo is empty, or it is the transcript of the latest request. *)
Definition memo_matches_latest (w : World) : Prop :=
  match lastProcessedTranscript (app w) with
  | None => True
  | Some t => last (requests (log w)) JNull = request_body t
  end.

(** The response of the function as [fetch] delivers it to the component:
    its status, the status text of the transport, and its body parsed
    again. *)
Definition over_http (statusText : string) (r : Backend.HandlerResponse)
  : FetchOutcome :=
  FetchResolves
    {| status := Backend.statusCode r;
       statusText := statusText;
       json := JsonResolves (Backend.responseBody r) |}.

(** The detail the component puts after "Function Error (status): " for a
    response with an error status. *)
Definition error_detail (response : Response) : string :=
  match json response with
  | JsonRejects _ => "Failed to parse error response from function."
  | JsonResolves body =>
      if truthy (get_opt body "error")
      then to_string (get_opt body "error")
      else statusText response
  end.

(** The mounted component in a browser without [window.speechSynthesis]. *)
Definition engineless_world : World :=
  {| app := app initial_world;
     recog := recog initial_world;
     synth := None;
     inflight := [];
     log := [] |}.

(** Two computations agree when, started in worlds that differ at most in
    the reply display, they return the same value and end in worlds that
    differ at most in the reply display, the second one without writing
    that display. *)
Definition agree {A : Type} (m m' : M A) : Prop :=
  forall w1 w2 : World,
    erase w1 = erase w2 ->
    fst (m w1) = fst (m' w2)
    /\ erase (snd (m w1)) = erase (snd (m' w2))
    /\ aiResponseText (app (snd (m' w2))) = aiResponseText (app w2).

(** An environment with a configured key whose call to the model fails
    with the given value. *)
Definition failing_env (error : Backend.Caught) : Backend.Env :=
  {| Backend.api_key_configured := true;
     Backend.time := "03:45 PM";
     Backend.today := "Saturday, March 29, 2025";
     Backend.create := fun _ => Backend.CreateRejects error |}.

(** The error of the OpenAI client for a rejected request: an [Error]
    with the API response attached. *)
Definition api_error (message apiMessage : string) : Backend.Caught :=
  {| Backend.caught_response :=
       JObj [("status", JNum 429);
             ("data", JObj [("error", JObj [("message", JStr apiMessage)])])];
     Backend.caught_is_error := true;
     Backend.caught_message := JStr message |}.

(** An environment without a configured key. *)
Definition keyless_env : Backend.Env :=
  {| Backend.api_key_configured := false;
     Backend.time := "03:45 PM";
     Backend.today := "Saturday, March 29, 2025";
     Backend.create := fun _ =>
       Backend.CreateResolves (Backend.completion_of None) |}.

(** A completion with one choice per given content, in that order. *)
Definition completion_of_contents (cs : list (option string))
  : Backend.ChatCompletion :=
  {| Backend.choices :=
       map (fun c => {| Backend.message :=
                          Some {| Backend.content := c |} |}) cs |}.

(** An environment with a configured key whose model always returns the
    given completion. *)
Definition answering_env (c : Backend.ChatCompletion) : Backend.Env :=
  {| Backend.api_key_configured := true;
     Backend.time := "03:45 PM";
     Backend.today := "Saturday, March 29, 2025";
     Backend.create := fun _ => Backend.CreateResolves c |}.

(** The error of the OpenAI client for a failure that carries a response
    without an API message in it. *)
Definition bare_api_error (message : string) : Backend.Caught :=
  {| Backend.caught_response := JObj [("status", JNum 502)];
     Backend.caught_is_error := true;
     Backend.caught_message := JStr message |}.

(** * Verification *)

(** ** Running monadic code *)

Lemma exec_bind {A B : Type} (m : M A) (k : A -> M B) (w : World) :
  exec (bind m k) w = exec (k (fst (m w))) (snd (m w)).
Proof.
  unfold exec, bind. destruct (m w) as [a w']. reflexivity.
Qed.

Lemma bind_seq {B : Type} (m : M unit) (k : M B) (w : World) :
  (m ;; k) w = k (exec m w).
Proof.
  unfold exec, bind. destruct (m w) as [a w']. reflexivity.
Qed.

Lemma exec_seq {B : Type} (m : M unit) (k : M B) (w : World) :
  exec (m ;; k) w = exec k (exec m w).
Proof.
  unfold exec. rewrite bind_seq. reflexivity.
Qed.

Lemma exec_ret_bind {A B : Type} (a : A) (k : A -> M B) (w : World) :
  exec (x <- ret a ;; k x) w = exec (k a) w.
Proof.
  reflexivity.
Qed.

Lemma exec_when (b : bool) (m : M unit) (w : World) :
  exec (when b m) w = if b then exec m w else w.
Proof.
  destruct b; reflexivity.
Qed.

(** ** The log readers distribute over concatenation *)

Lemma requests_app (l1 l2 : list Effect) :
  requests (l1 ++ l2) = (requests l1 ++ requests l2)%list.
Proof.
  induction l1 as [|e l1 IH]; simpl; [reflexivity|].
  destruct e; simpl; rewrite IH; reflexivity.
Qed.

Lemma spoken_app (l1 l2 : list Effect) :
  spoken (l1 ++ l2) = (spoken l1 ++ spoken l2)%list.
Proof.
  induction l1 as [|e l1 IH]; simpl; [reflexivity|].
  destruct e; simpl; rewrite IH; reflexivity.
Qed.

Lemma warnings_app (l1 l2 : list Effect) :
  warnings (l1 ++ l2) = (warnings l1 ++ warnings l2)%list.
Proof.
  induction l1 as [|e l1 IH]; simpl; [reflexivity|].
  destruct e as [lvl lbl| | | | | | |]; simpl; try (rewrite IH; reflexivity).
  destruct lvl; simpl; rewrite IH; reflexivity.
Qed.

Lemma session_starts_app (l1 l2 : list Effect) :
  session_starts (l1 ++ l2) = session_starts l1 + session_starts l2.
Proof.
  induction l1 as [|e l1 IH]; simpl; [reflexivity|].
  destruct e; simpl; rewrite IH; reflexivity.
Qed.

Create Rewrite HintDb logs.
#[local] Hint Rewrite requests_app spoken_app warnings_app session_starts_app
  : logs.
#[local] Hint Rewrite <- app_assoc : logs.
#[local] Hint Rewrite app_nil_r Nat.add_0_r : logs.

(** ** What [speak] does *)

Lemma speak_spoken (w : World) (s : SpeechSynthesis) (text : JsValue) :
  synth w = Some s ->
  truthy text = true ->
  exec (speak text) w =
    {| app := app w; recog := recog w;
       synth := Some (speak_engine s (to_string text));
       inflight := inflight w;
       log := (log w ++ speak_entries s (to_string text))%list |}.
Proof.
  intros Hs Ht. destruct w as [a r sy fl l]. simpl in Hs. subst sy.
  unfold speak, speak_entries, speak_engine, exec, bind, read. simpl.
  rewrite Ht. simpl.
  destruct (speaking s) eqn:E; simpl; unfold with_log, with_synth; simpl;
    rewrite <- ?app_assoc; reflexivity.
Qed.

Lemma speak_refused (w : World) (text : JsValue) :
  truthy text = false \/ synth w = None ->
  exec (speak text) w =
    with_log (fun l => (l ++ [Console WarnLevel
      "Speech synthesis not available or text is empty."])%list) w.
Proof.
  intros H. unfold speak, exec, bind, read. simpl.
  destruct H as [H|H]; rewrite H; simpl.
  - reflexivity.
  - destruct (truthy text); reflexivity.
Qed.

(** [speak] touches the engine and the log only, and never the network or
    the capture service. *)
Lemma speak_frame (w : World) (text : JsValue) :
  app (exec (speak text) w) = app w
  /\ recog (exec (speak text) w) = recog w
  /\ inflight (exec (speak text) w) = inflight w
  /\ requests (log (exec (speak text) w)) = requests (log w)
  /\ session_starts (log (exec (speak text) w)) = session_starts (log w).
Proof.
  destruct (truthy text) eqn:Ht; [destruct (synth w) as [s|] eqn:Hs|].
  - rewrite (speak_spoken w s text Hs Ht). simpl.
    unfold speak_entries. destruct (speaking s); simpl;
      autorewrite with logs; simpl; autorewrite with logs; auto.
  - rewrite (speak_refused w text (or_intror Hs)). simpl.
    autorewrite with logs; simpl; autorewrite with logs; auto.
  - rewrite (speak_refused w text (or_introl Ht)). simpl.
    autorewrite with logs; simpl; autorewrite with logs; auto.
Qed.

(** ** What the Utterance Guard does *)

Lemma guard_is_trim (text : string) :
  negb (truthy (JStr text)) || String.eqb (trim text) ""
  = String.eqb (trim text) "".
Proof.
  destruct text; reflexivity.
Qed.

Lemma same_as_last_true (memo : option string) (text : string) :
  same_as_last memo text = true <-> memo = Some text.
Proof.
  destruct memo as [last|]; simpl.
  - rewrite String.eqb_eq. split; congruence.
  - split; discriminate.
Qed.

Lemma getAiResponse_blank (w : World) (text : string) :
  trim text = "" -> exec (getAiResponse text) w = w.
Proof.
  intros H. unfold getAiResponse. rewrite guard_is_trim, H. reflexivity.
Qed.

Lemma getAiResponse_duplicate (w : World) (text : string) :
  trim text <> "" ->
  lastProcessedTranscript (app w) = Some text ->
  exec (getAiResponse text) w =
    with_log (fun l => (l ++ [Console LogLevel
      "Skipping duplicate final transcript:"])%list) w.
Proof.
  intros Hne Hm. unfold getAiResponse. rewrite guard_is_trim.
  apply String.eqb_neq in Hne. rewrite Hne.
  rewrite exec_bind. simpl.
  apply same_as_last_true in Hm. rewrite Hm. reflexivity.
Qed.

Lemma getAiResponse_accepted (w : World) (text : string) :
  trim text <> "" ->
  lastProcessedTranscript (app w) <> Some text ->
  exec (getAiResponse text) w =
    {| app := with_isAiResponding true
                (with_lastProcessedTranscript (Some text) (app w));
       recog := recog w;
       synth := synth w;
       inflight := (inflight w ++ [text])%list;
       log := (log w ++
               [Console LogLevel "Sending to AI function:";
                Fetch "/.netlify/functions/getAiResponse"
                      (JObj [("transcript", JStr text)])])%list |}.
Proof.
  intros Hne Hm. unfold getAiResponse. rewrite guard_is_trim.
  apply String.eqb_neq in Hne. rewrite Hne.
  rewrite exec_bind. simpl.
  destruct (same_as_last (lastProcessedTranscript (app w)) text) eqn:E.
  - apply same_as_last_true in E. contradiction.
  - destruct w as [a r sy fl l]. unfold exec. simpl.
    unfold with_log, with_app, with_inflight. simpl.
    rewrite <- ?app_assoc. reflexivity.
Qed.

(** ** The continuation of [getAiResponse] *)

Lemma catch_exec (rev : Revision) (error : Thrown) (w : World) :
  exists w0,
    exec (getAiResponse_catch rev error) w
    = exec (speak (JStr (feedback_of error))) w0
    /\ lastProcessedTranscript (app w0) = lastProcessedTranscript (app w)
    /\ isAiResponding (app w0) = isAiResponding (app w)
    /\ recog w0 = recog w /\ synth w0 = synth w /\ inflight w0 = inflight w
    /\ requests (log w0) = requests (log w)
    /\ spoken (log w0) = spoken (log w)
    /\ session_starts (log w0) = session_starts (log w).
Proof.
  destruct error as [message|]; destruct rev; eexists;
    (split; [unfold getAiResponse_catch; rewrite !exec_bind; simpl; reflexivity|]);
    simpl; autorewrite with logs; simpl; autorewrite with logs;
    repeat split; reflexivity.
Qed.

(** Whatever the outcome of the fetch, the continuation calls [speak]
    exactly once, with a truthy text, and then clears the loading flag;
    before that call it has touched neither the memo, nor the engine, nor
    the network. *)
Lemma resume_exec (rev : Revision) (o : FetchOutcome) (w : World) :
  exists (text : JsValue) (w0 : World),
    exec (getAiResponse_resume rev o) w
    = with_app (with_isAiResponding false) (exec (speak text) w0)
    /\ truthy text = true
    /\ lastProcessedTranscript (app w0) = lastProcessedTranscript (app w)
    /\ recog w0 = recog w /\ synth w0 = synth w /\ inflight w0 = inflight w
    /\ requests (log w0) = requests (log w)
    /\ spoken (log w0) = spoken (log w)
    /\ session_starts (log w0) = session_starts (log w).
Proof.
  assert (Hcatch : forall e,
    exec (getAiResponse_catch rev e ;; setIsAiResponding false) w
    = with_app (with_isAiResponding false) (exec (getAiResponse_catch rev e) w)).
  { intros e. rewrite exec_bind. reflexivity. }
  assert (Herr : forall e,
    exec (getAiResponse_resume rev o) w
    = exec (getAiResponse_catch rev e ;; setIsAiResponding false) w ->
    exists (text : JsValue) (w0 : World),
      exec (getAiResponse_resume rev o) w
      = with_app (with_isAiResponding false) (exec (speak text) w0)
      /\ truthy text = true
      /\ lastProcessedTranscript (app w0) = lastProcessedTranscript (app w)
      /\ recog w0 = recog w /\ synth w0 = synth w /\ inflight w0 = inflight w
      /\ requests (log w0) = requests (log w)
      /\ spoken (log w0) = spoken (log w)
      /\ session_starts (log w0) = session_starts (log w)).
  { intros e He. destruct (catch_exec rev e w) as (w0 & Hw0 & Hrest).
    exists (JStr (feedback_of e)), w0. split.
    - rewrite He, Hcatch, Hw0. reflexivity.
    - split; [destruct e; reflexivity|].
      destruct Hrest as (H1 & _ & H3 & H4 & H5 & H6 & H7 & H8).
      repeat split; assumption. }
  unfold getAiResponse_resume, getAiResponse_try in *.
  destruct o as [e|response].
  - apply (Herr e). reflexivity.
  - destruct (negb (ok response)).
    + eapply Herr. reflexivity.
    + destruct (json response) as [e|data].
      * apply (Herr e). reflexivity.
      * destruct (get data "response") as [r|].
        -- destruct (truthy r) eqn:Hr.
           ++ exists r.
              exists (exec (console LogLevel "AI Response received:" ;;
                            setAiResponseText rev r) w).
              split; [rewrite exec_bind, !bind_seq; simpl;
                      rewrite !exec_bind; reflexivity|].
              split; [exact Hr|].
              destruct rev; simpl; autorewrite with logs; simpl;
                autorewrite with logs; repeat split; reflexivity.
           ++ eapply Herr. reflexivity.
        -- eapply Herr. reflexivity.
Qed.

Lemma resume_frame (rev : Revision) (o : FetchOutcome) (w : World) :
  let w' := exec (getAiResponse_resume rev o) w in
  lastProcessedTranscript (app w') = lastProcessedTranscript (app w)
  /\ isAiResponding (app w') = false
  /\ recog w' = recog w
  /\ inflight w' = inflight w
  /\ requests (log w') = requests (log w)
  /\ session_starts (log w') = session_starts (log w).
Proof.
  destruct (resume_exec rev o w)
    as (text & w0 & Hw & _ & Hm & Hr & _ & Hf & Hq & _ & Hs).
  destruct (speak_frame w0 text) as (Ha & Hr' & Hf' & Hq' & Hs').
  simpl. rewrite Hw. simpl. rewrite Ha, Hr', Hf', Hq', Hs'.
  repeat split; assumption.
Qed.

(** ** The memo between two finalized utterances *)

Lemma effect_guarded (t : string) (w : World) :
  guarded t w ->
  finalTranscript (recog w) = t ->
  app (exec effect w) = app w
  /\ recog (exec effect w) = recog w
  /\ synth (exec effect w) = synth w
  /\ inflight (exec effect w) = inflight w
  /\ requests (log (exec effect w)) = requests (log w)
  /\ spoken (log (exec effect w)) = spoken (log w).
Proof.
  intros G Hf. unfold effect. rewrite !exec_bind. simpl. rewrite Hf.
  rewrite exec_when.
  destruct (negb (listening (recog w)) && negb (String.eqb t ""));
    [|repeat split; reflexivity].
  destruct (string_dec (trim t) "") as [Hb|Hb].
  - rewrite (getAiResponse_blank w t Hb). repeat split; reflexivity.
  - destruct G as [G|G]; [contradiction|].
    rewrite (getAiResponse_duplicate w t Hb G). simpl.
    autorewrite with logs. simpl. autorewrite with logs.
    repeat split; reflexivity.
Qed.

Lemma step_keeps_memo (rev : Revision) (t : string) (e : Event) (w : World) :
  keeps_memo t e = true ->
  guarded t w ->
  guarded t (exec (step rev e) w)
  /\ requests (log (exec (step rev e) w)) = requests (log w).
Proof.
  intros K G. unfold guarded in *.
  destruct e; simpl in K; try discriminate; unfold step; cbv beta iota.
  - (* ClickStop *)
    rewrite exec_bind, exec_when. simpl.
    destruct (negb (stopDisabled w)); simpl;
      autorewrite with logs; simpl; autorewrite with logs; auto.
  - (* ClickSpeak *)
    rewrite exec_bind, exec_when. simpl.
    destruct (negb (speakDisabled w)); [|auto].
    unfold handleSpeakInput. rewrite exec_bind. simpl.
    destruct (speak_frame w (JStr (textToSpeak (app w))))
      as (Ha & _ & _ & Hq & _).
    rewrite Ha, Hq. auto.
  - (* ChangeText *)
    auto.
  - (* CommandStop *)
    autorewrite with logs; simpl; autorewrite with logs; auto.
  - (* CaptureListening *)
    rewrite exec_bind. simpl. auto.
  - (* CaptureFinalized *)
    apply String.eqb_eq in K. subst text.
    rewrite exec_bind. simpl.
    destruct (effect_guarded t (with_recog (hook_finalized t) w))
      as (Ha & _ & _ & _ & Hq & _); [exact G|reflexivity|].
    rewrite Ha, Hq. auto.
  - (* MicrophoneAvailability *)
    auto.
  - (* FetchSettled *)
    rewrite exec_bind, exec_when. simpl.
    destruct (i <? length (inflight w))%nat; [|auto].
    rewrite exec_bind. simpl.
    destruct (resume_frame rev o (with_inflight (remove_nth i) w))
      as (Hm & _ & _ & _ & Hq & _).
    simpl in Hm, Hq. rewrite Hm, Hq. auto.
  - (* UtteranceStart *)
    rewrite exec_bind. simpl.
    destruct (synth w) as [s|]; [|auto].
    rewrite exec_when.
    destruct (negb (speaking s) && negb (length (queue s) =? 0)%nat); auto.
  - (* UtteranceEnd *)
    auto.
  - (* UtteranceError *)
    rewrite !exec_bind. simpl.
    autorewrite with logs; simpl; autorewrite with logs; auto.
Qed.

Lemma run_keeps_memo (rev : Revision) (t : string) (es : list Event) :
  forallb (keeps_memo t) es = true ->
  forall w : World,
    guarded t w ->
    guarded t (exec (run rev es) w)
    /\ requests (log (exec (run rev es) w)) = requests (log w).
Proof.
  induction es as [|e es IH]; intros K w G; simpl in *.
  - auto.
  - apply andb_true_iff in K. destruct K as [Ke Kes].
    rewrite exec_bind. fold (exec (step rev e) w).
    destruct (step_keeps_memo rev t e w Ke G) as [G1 Hq1].
    destruct (IH Kes _ G1) as [G2 Hq2].
    rewrite Hq2, Hq1. auto.
Qed.

Lemma memo_dec (memo : option string) (t : string) :
  {memo = Some t} + {memo <> Some t}.
Proof.
  destruct memo as [last|]; [|right; discriminate].
  destruct (string_dec last t) as [E|E]; [left|right]; congruence.
Qed.

Lemma trim_nonempty (t : string) : trim t <> "" -> t <> "".
Proof.
  intros H E. subst t. apply H. reflexivity.
Qed.

Lemma finalized_exec (rev : Revision) (t : string) (w : World) :
  trim t <> "" ->
  exec (step rev (CaptureFinalized t)) w
  = exec (getAiResponse t) (with_recog (hook_finalized t) w).
Proof.
  intros Hne. unfold step. rewrite exec_bind. simpl.
  unfold effect. rewrite !exec_bind. simpl. rewrite exec_when.
  apply trim_nonempty in Hne. apply String.eqb_neq in Hne.
  rewrite Hne. reflexivity.
Qed.

Lemma finalized_blank (rev : Revision) (t : string) (w : World) :
  trim t = "" ->
  exec (step rev (CaptureFinalized t)) w = with_recog (hook_finalized t) w.
Proof.
  intros Hb. unfold step. rewrite exec_bind. simpl.
  unfold effect. rewrite !exec_bind. simpl. rewrite exec_when.
  destruct (negb (String.eqb t "")); [|reflexivity].
  apply getAiResponse_blank. exact Hb.
Qed.

Lemma finalized_guarded (rev : Revision) (t : string) (w : World) :
  let w1 := exec (step rev (CaptureFinalized t)) w in
  guarded t w1
  /\ (length (requests (log w1)) <= S (length (requests (log w))))%nat.
Proof.
  cbv zeta. unfold guarded.
  destruct (string_dec (trim t) "") as [Hb|Hb].
  - rewrite (finalized_blank rev t w Hb). simpl. auto.
  - rewrite (finalized_exec rev t w Hb).
    destruct (memo_dec (lastProcessedTranscript (app w)) t) as [Hm|Hm].
    + rewrite getAiResponse_duplicate by assumption. simpl.
      autorewrite with logs. simpl. autorewrite with logs. auto.
    + rewrite getAiResponse_accepted by assumption. simpl.
      autorewrite with logs. simpl. rewrite length_app. simpl.
      split; [auto|lia].
Qed.

(** ** C1: a repeated finalized utterance is dropped *)

(** C1.  Let the capture service finalize [t], let any events follow that
    neither start a listening session, nor reset, nor finalize another
    text, and let it finalize [t] again.  After the first event the guard
    holds [t] (unless [t] is blank, which is never sent); the second event
    changes neither the component state, nor the speech engine, nor the
    pending requests, speaks nothing and sends nothing; over the whole run
    at most one request leaves. *)
Theorem duplicate_utterance_dropped
  (rev : Revision) (w : World) (t : string) (es : list Event) :
  forallb (keeps_memo t) es = true ->
  let w1 := exec (step rev (CaptureFinalized t)) w in
  let w2 := exec (run rev es) w1 in
  let w3 := exec (step rev (CaptureFinalized t)) w2 in
  (trim t = "" \/ lastProcessedTranscript (app w1) = Some t)
  /\ app w3 = app w2
  /\ synth w3 = synth w2
  /\ inflight w3 = inflight w2
  /\ requests (log w3) = requests (log w2)
  /\ spoken (log w3) = spoken (log w2)
  /\ requests (log w3) = requests (log w1)
  /\ (length (requests (log w3)) <= S (length (requests (log w))))%nat.
Proof.
  intros K w1 w2 w3.
  destruct (finalized_guarded rev t w) as [G1 L1]. fold w1 in G1, L1.
  destruct (run_keeps_memo rev t es K w1 G1) as [G2 Q2]. fold w2 in G2, Q2.
  assert (H3 : app w3 = app w2 /\ synth w3 = synth w2
               /\ inflight w3 = inflight w2
               /\ requests (log w3) = requests (log w2)
               /\ spoken (log w3) = spoken (log w2)).
  { unfold w3, step. rewrite exec_bind. simpl.
    destruct (effect_guarded t (with_recog (hook_finalized t) w2))
      as (Ha & _ & Hs & Hf & Hq & Hp); [exact G2|reflexivity|].
    rewrite Ha, Hs, Hf, Hq, Hp. repeat split; reflexivity. }
  destruct H3 as (Ha & Hs & Hf & Hq & Hp).
  split; [exact G1|].
  repeat (split; [assumption|]).
  split; [congruence|].
  rewrite Hq, Q2. exact L1.
Qed.

Lemma duplicate_utterance_dropped_witness :
  forallb (keeps_memo "hello")
    [FetchSettled 0 (backend_reply "OK" "Hi there"); UtteranceStart;
     CaptureFinalized "hello"; UtteranceEnd] = true
  /\ requests (log (exec (run WithReply
        [CaptureFinalized "hello";
         FetchSettled 0 (backend_reply "OK" "Hi there"); UtteranceStart;
         CaptureFinalized "hello"; UtteranceEnd;
         CaptureFinalized "hello"]) initial_world))
     = [request_body "hello"].
Proof.
  split; [reflexivity|].
  pose proof (duplicate_utterance_dropped WithReply initial_world "hello"
    [FetchSettled 0 (backend_reply "OK" "Hi there"); UtteranceStart;
     CaptureFinalized "hello"; UtteranceEnd] eq_refl) as H.
  vm_compute in H. vm_compute.
  destruct H as (_ & _ & _ & _ & _ & _ & H & _).
  exact H.
Defined.

(** ** C10: the guard compares the raw text *)

(** C10.  The guard's test is [===] on the finalized text as delivered.
    Two consecutive finalized utterances with different texts, however
    small the difference (a surrounding space, the case of a letter), are
    both accepted: each sends its own request, the first provided it is not
    itself a repetition of the memo. *)
Theorem guard_compares_raw_text
  (rev : Revision) (w : World) (t1 t2 : string) (es : list Event) :
  t1 <> t2 ->
  trim t1 <> "" ->
  trim t2 <> "" ->
  lastProcessedTranscript (app w) <> Some t1 ->
  forallb (keeps_memo t1) es = true ->
  let w1 := exec (step rev (CaptureFinalized t1)) w in
  let w2 := exec (run rev es) w1 in
  let w3 := exec (step rev (CaptureFinalized t2)) w2 in
  requests (log w3)
  = (requests (log w) ++ [request_body t1; request_body t2])%list
  /\ lastProcessedTranscript (app w1) = Some t1
  /\ lastProcessedTranscript (app w3) = Some t2.
Proof.
  intros Hd H1 H2 Hm K w1 w2 w3.
  assert (E1 : w1 = exec (getAiResponse t1) (with_recog (hook_finalized t1) w))
    by (apply finalized_exec; exact H1).
  rewrite getAiResponse_accepted in E1 by assumption.
  assert (G1 : guarded t1 w1) by (right; rewrite E1; reflexivity).
  destruct (run_keeps_memo rev t1 es K w1 G1) as [G2 Q2]. fold w2 in G2, Q2.
  destruct G2 as [G2|G2]; [contradiction|].
  assert (E3 : w3 = exec (getAiResponse t2) (with_recog (hook_finalized t2) w2))
    by (apply finalized_exec; exact H2).
  rewrite getAiResponse_accepted in E3;
    [|assumption|simpl; rewrite G2; congruence].
  split; [|split].
  - rewrite E3. simpl. autorewrite with logs. simpl. rewrite Q2, E1. simpl.
    autorewrite with logs. simpl. reflexivity.
  - rewrite E1. reflexivity.
  - rewrite E3. reflexivity.
Qed.

Lemma guard_compares_raw_text_witness :
  "Hello" <> " hello"
  /\ requests (log (exec (run WithReply
       [CaptureFinalized "Hello"; CaptureFinalized " hello"]) initial_world))
     = [request_body "Hello"; request_body " hello"].
Proof.
  assert (Hd : "Hello" <> " hello") by discriminate.
  split; [exact Hd|].
  pose proof (guard_compares_raw_text WithReply initial_world
                "Hello" " hello" [] Hd) as H.
  vm_compute in H. vm_compute.
  apply H; try discriminate. reflexivity.
Defined.

(** ** C2: a new utterance replaces the one in progress *)

(** C2.  When [speak] is called with a non-empty text while the engine is
    speaking, it cancels the engine before it hands over the new utterance
    (the log shows the cancellation first), and afterwards the engine holds
    exactly one utterance, the new one. *)
Theorem speak_while_speaking_replaces
  (w : World) (s : SpeechSynthesis) (text : string) :
  synth w = Some s ->
  speaking s = true ->
  text <> "" ->
  let w' := exec (speak (JStr text)) w in
  utterances w' = [text]
  /\ log w'
     = (log w ++
        [Console LogLevel "Already speaking, cancelling previous utterance.";
         SynthCancel;
         Console LogLevel "Attempting to speak:";
         SynthSpeak text])%list
  /\ app w' = app w
  /\ recog w' = recog w
  /\ inflight w' = inflight w.
Proof.
  intros Hs Hsp Ht w'. unfold w'.
  assert (Htruthy : truthy (JStr text) = true).
  { simpl. apply String.eqb_neq in Ht. rewrite Ht. reflexivity. }
  rewrite (speak_spoken w s (JStr text) Hs Htruthy).
  unfold utterances, speak_engine, speak_entries. simpl. rewrite Hsp. simpl.
  repeat split; reflexivity.
Qed.

Lemma speak_while_speaking_replaces_witness :
  is_speaking speaking_world = true
  /\ utterances speaking_world = ["first"; "second"]
  /\ utterances (exec (speak (JStr "third")) speaking_world) = ["third"].
Proof.
  split; [reflexivity|]. split; [reflexivity|].
  exact (proj1 (speak_while_speaking_replaces speaking_world
                  {| speaking := true; queue := ["first"; "second"] |}
                  "third" eq_refl eq_refl ltac:(discriminate))).
Defined.

(** ** C5: [speak] with an empty or a blank text *)

(** C5, as stated, fails for white-space-only text: in the freshly mounted
    component [speak(" ")] logs no warning and hands the utterance [" "] to
    the engine. *)
Lemma speak_whitespace_counterexample :
  blank " " = true
  /\ warnings (log (exec (speak (JStr " ")) initial_world)) = []
  /\ spoken (log (exec (speak (JStr " ")) initial_world)) = [" "]
  /\ utterances (exec (speak (JStr " ")) initial_world) = [" "]
  /\ utterances initial_world = [].
Proof.
  repeat split; reflexivity.
Qed.

(** C5, amended.  [speak("")] only logs a warning: the component, the
    engine, the pending requests and the capture state stay as they are.
    A non-empty text, white space included, is spoken like any other when
    an engine is present: it is appended to the engine's utterances, after
    a cancellation if the engine was speaking, and no warning is logged. *)
Theorem speak_empty_is_noop_blank_is_spoken
  (w : World) (s : SpeechSynthesis) (text : string) :
  synth w = Some s ->
  text <> "" ->
  exec (speak (JStr "")) w
  = with_log (fun l => (l ++ [Console WarnLevel
      "Speech synthesis not available or text is empty."])%list) w
  /\ spoken (log (exec (speak (JStr text)) w))
     = (spoken (log w) ++ [text])%list
  /\ utterances (exec (speak (JStr text)) w)
     = ((if speaking s then [] else queue s) ++ [text])%list
  /\ warnings (log (exec (speak (JStr text)) w)) = warnings (log w).
Proof.
  intros Hs Ht.
  split; [apply speak_refused; left; reflexivity|].
  assert (Htruthy : truthy (JStr text) = true).
  { simpl. apply String.eqb_neq in Ht. rewrite Ht. reflexivity. }
  rewrite (speak_spoken w s (JStr text) Hs Htruthy).
  unfold utterances, speak_engine, speak_entries. simpl.
  destruct (speaking s); simpl; autorewrite with logs; simpl;
    autorewrite with logs; repeat split; reflexivity.
Qed.

Lemma speak_empty_is_noop_blank_is_spoken_witness :
  "   " <> ""
  /\ spoken (log (exec (speak (JStr "   ")) initial_world)) = ["   "].
Proof.
  assert (Hne : "   " <> "") by discriminate.
  split; [exact Hne|].
  exact (proj1 (proj2 (speak_empty_is_noop_blank_is_spoken initial_world
                  {| speaking := false; queue := [] |} "   "
                  eq_refl Hne))).
Defined.

(** ** C3 and C4: one turn *)

Lemma remove_nth_last (l : list string) (t : string) :
  remove_nth (length l) (l ++ [t]) = l.
Proof.
  unfold remove_nth. induction l as [|x l IH]; simpl.
  - reflexivity.
  - simpl in IH. rewrite IH. reflexivity.
Qed.

(** The world in which the continuation of the latest request runs. *)
Lemma settle_latest (rev : Revision) (o : FetchOutcome) (w : World)
  (l : list string) (t : string) :
  inflight w = (l ++ [t])%list ->
  exec (step rev (FetchSettled (length l) o)) w
  = exec (getAiResponse_resume rev o) (with_inflight (fun _ => l) w).
Proof.
  intros Hf. unfold step. rewrite exec_bind, exec_when. simpl.
  rewrite Hf.
  replace (length l <? length (l ++ [t]))%nat with true
    by (symmetry; apply Nat.ltb_lt; rewrite length_app; simpl; lia).
  rewrite exec_bind. simpl. unfold with_inflight. simpl.
  rewrite Hf, remove_nth_last. reflexivity.
Qed.

Lemma resume_reply (rev : Revision) (w : World) (s : SpeechSynthesis)
  (statusText reply : string) :
  synth w = Some s ->
  reply <> "" ->
  exec (getAiResponse_resume rev (backend_reply statusText reply)) w
  = with_app (with_isAiResponding false)
      (exec (speak (JStr reply))
         (exec (setAiResponseText rev (JStr reply))
            (with_log (fun l =>
               (l ++ [Console LogLevel "AI Response received:"])%list) w))).
Proof.
  intros Hs Hr. unfold getAiResponse_resume, getAiResponse_try, backend_reply.
  simpl. apply String.eqb_neq in Hr. rewrite Hr. simpl.
  rewrite exec_bind, !bind_seq. simpl. rewrite !exec_bind. reflexivity.
Qed.

Lemma resume_error (rev : Revision) (w : World)
  (code : nat) (statusText message : string) :
  Net.ok {| status := code; statusText := statusText;
            json := JsonResolves (JObj [("error", JStr message)]) |} = false ->
  message <> "" ->
  exec (getAiResponse_resume rev (backend_error code statusText message)) w
  = with_app (with_isAiResponding false)
      (exec (speak (JStr ("Sorry, I encountered an error: Function Error ("
                          ++ string_of_nat code ++ "): " ++ message)))
         (exec (setAiResponseText rev (JStr ""))
            (with_log (fun l =>
               (l ++ [Console ErrorLevel "Error fetching AI response:"])%list)
               w))).
Proof.
  intros Hok Hm. unfold getAiResponse_resume, getAiResponse_try, backend_error.
  rewrite Hok. simpl. unfold or_else. simpl.
  apply String.eqb_neq in Hm. rewrite Hm. simpl.
  rewrite exec_ret_bind, exec_seq. unfold getAiResponse_catch.
  rewrite exec_seq, exec_ret_bind, exec_seq. reflexivity.
Qed.

(** One turn that the backend answers with a reply. *)
Lemma turn_reply (rev : Revision) (w : World) (s : SpeechSynthesis)
  (t statusText reply : string) :
  synth w = Some s ->
  trim t <> "" ->
  lastProcessedTranscript (app w) <> Some t ->
  reply <> "" ->
  let w1 := exec (step rev (CaptureFinalized t)) w in
  let w2 := exec (step rev (FetchSettled (length (inflight w))
                              (backend_reply statusText reply))) w1 in
  requests (log w1) = (requests (log w) ++ [request_body t])%list
  /\ isAiResponding (app w1) = true
  /\ isAiResponding (app w2) = false
  /\ listening (recog w2) = false
  /\ inflight w2 = inflight w
  /\ lastProcessedTranscript (app w2) = Some t
  /\ (rev = WithReply -> aiResponseText (app w2) = JStr reply)
  /\ spoken (log w2) = (spoken (log w) ++ [reply])%list
  /\ requests (log w2) = requests (log w1).
Proof.
  intros Hs Ht Hm Hr w1 w2.
  assert (E1 : w1 = exec (getAiResponse t) (with_recog (hook_finalized t) w))
    by (apply finalized_exec; exact Ht).
  rewrite getAiResponse_accepted in E1 by assumption. simpl in E1.
  assert (E2 : w2 = exec (getAiResponse_resume rev
                            (backend_reply statusText reply))
                      (with_inflight (fun _ => inflight w) w1)).
  { unfold w2. apply (settle_latest rev _ w1 (inflight w) t).
    rewrite E1. reflexivity. }
  rewrite (resume_reply rev _ s statusText reply) in E2;
    [|rewrite E1; exact Hs|exact Hr].
  assert (Htruthy : truthy (JStr reply) = true).
  { simpl. apply String.eqb_neq in Hr. rewrite Hr. reflexivity. }
  rewrite (speak_spoken _ s (JStr reply)) in E2;
    [|destruct rev; rewrite E1; exact Hs|exact Htruthy].
  split; [rewrite E1; simpl; autorewrite with logs; reflexivity|].
  split; [rewrite E1; reflexivity|].
  rewrite E2. clear E2. simpl.
  destruct rev; rewrite E1; simpl; unfold speak_entries;
    destruct (speaking s); simpl; autorewrite with logs; simpl;
    autorewrite with logs; repeat split; try reflexivity; discriminate.
Qed.

(** One turn that the backend answers with an error status and body. *)
Lemma turn_error (rev : Revision) (w : World) (s : SpeechSynthesis)
  (t : string) (code : nat) (statusText message : string) :
  synth w = Some s ->
  trim t <> "" ->
  lastProcessedTranscript (app w) <> Some t ->
  Net.ok {| status := code; statusText := statusText;
            json := JsonResolves (JObj [("error", JStr message)]) |} = false ->
  message <> "" ->
  let w1 := exec (step rev (CaptureFinalized t)) w in
  let w2 := exec (step rev (FetchSettled (length (inflight w))
                              (backend_error code statusText message))) w1 in
  isAiResponding (app w2) = false
  /\ listening (recog w2) = false
  /\ inflight w2 = inflight w
  /\ lastProcessedTranscript (app w2) = Some t
  /\ (rev = WithReply -> aiResponseText (app w2) = JStr "")
  /\ spoken (log w2)
     = (spoken (log w) ++
        [("Sorry, I encountered an error: Function Error ("
          ++ string_of_nat code ++ "): " ++ message)%string])%list
  /\ requests (log w2) = (requests (log w) ++ [request_body t])%list.
Proof.
  intros Hs Ht Hm Hok Hmsg w1 w2.
  assert (E1 : w1 = exec (getAiResponse t) (with_recog (hook_finalized t) w))
    by (apply finalized_exec; exact Ht).
  rewrite getAiResponse_accepted in E1 by assumption. simpl in E1.
  assert (E2 : w2 = exec (getAiResponse_resume rev
                            (backend_error code statusText message))
                      (with_inflight (fun _ => inflight w) w1)).
  { unfold w2. apply (settle_latest rev _ w1 (inflight w) t).
    rewrite E1. reflexivity. }
  rewrite (resume_error rev _ code statusText message Hok Hmsg) in E2.
  rewrite (speak_spoken _ s) in E2;
    [|destruct rev; rewrite E1; exact Hs|reflexivity].
  rewrite E2. clear E2.
  destruct rev; rewrite E1; simpl; unfold speak_entries;
    destruct (speaking s); simpl; autorewrite with logs; simpl;
    autorewrite with logs; repeat split; try reflexivity; discriminate.
Qed.

(** C3.  The utterance "what time is it" is sent as
    [{"transcript": "what time is it"}]; when the backend answers HTTP 200
    with [{"response": "It is 3:45 PM."}], the component is idle again
    (not listening, loading flag cleared), the revision with a reply
    display shows "It is 3:45 PM.", and over the whole turn exactly one
    text was handed to the speech engine, that reply. *)
Theorem turn_what_time_is_it
  (rev : Revision) (w : World) (s : SpeechSynthesis) (statusText : string) :
  synth w = Some s ->
  lastProcessedTranscript (app w) <> Some "what time is it" ->
  let turn := fun r : Revision =>
    exec (step r (FetchSettled (length (inflight w))
                    (backend_reply statusText "It is 3:45 PM.")))
      (exec (step r (CaptureFinalized "what time is it")) w) in
  requests (log (exec (step rev (CaptureFinalized "what time is it")) w))
  = (requests (log w) ++ [JObj [("transcript", JStr "what time is it")]])%list
  /\ isAiResponding
       (app (exec (step rev (CaptureFinalized "what time is it")) w)) = true
  /\ isAiResponding (app (turn rev)) = false
  /\ listening (recog (turn rev)) = false
  /\ inflight (turn rev) = inflight w
  /\ aiResponseText (app (turn WithReply)) = JStr "It is 3:45 PM."
  /\ spoken (log (turn rev)) = (spoken (log w) ++ ["It is 3:45 PM."])%list
  /\ requests (log (turn rev))
     = (requests (log w) ++ [JObj [("transcript", JStr "what time is it")]])%list.
Proof.
  intros Hs Hm turn.
  assert (Ht : trim "what time is it" <> "") by (cbv; discriminate).
  assert (Hr : "It is 3:45 PM." <> "") by discriminate.
  destruct (turn_reply rev w s _ statusText _ Hs Ht Hm Hr)
    as (H1 & H2 & H3 & H4 & H5 & _ & _ & H8 & H9).
  destruct (turn_reply WithReply w s _ statusText _ Hs Ht Hm Hr)
    as (_ & _ & _ & _ & _ & _ & H7 & _).
  unfold turn.
  repeat (split; [assumption|]).
  split; [apply H7; reflexivity|].
  split; [assumption|].
  rewrite H9. exact H1.
Qed.

Lemma turn_what_time_is_it_witness :
  let w2 := exec (run WithReply
     [CaptureFinalized "what time is it";
      FetchSettled 0 (backend_reply "OK" "It is 3:45 PM.")]) initial_world in
  isAiResponding (app w2) = false
  /\ aiResponseText (app w2) = JStr "It is 3:45 PM."
  /\ spoken (log w2) = ["It is 3:45 PM."].
Proof.
  pose proof (turn_what_time_is_it WithReply initial_world
    {| speaking := false; queue := [] |} "OK" eq_refl
    ltac:(discriminate)) as H.
  vm_compute in H. vm_compute.
  destruct H as (_ & _ & H3 & _ & _ & H6 & H7 & _).
  split; [exact H3|split; [exact H6|exact H7]].
Defined.

(** C4.  When the backend answers a request with HTTP 500 and body
    [{"error": "model unavailable"}], exactly one fallback message is
    spoken, it contains "model unavailable", the component is idle again
    (not listening, loading flag cleared), no further request is sent, and
    the memo still holds the text of the utterance. *)
Theorem turn_model_unavailable
  (rev : Revision) (w : World) (s : SpeechSynthesis)
  (t statusText : string) :
  synth w = Some s ->
  trim t <> "" ->
  lastProcessedTranscript (app w) <> Some t ->
  let w1 := exec (step rev (CaptureFinalized t)) w in
  let w2 := exec (step rev (FetchSettled (length (inflight w))
                (backend_error 500 statusText "model unavailable"))) w1 in
  let fallback :=
    "Sorry, I encountered an error: Function Error (500): model unavailable" in
  spoken (log w2) = (spoken (log w) ++ [fallback])%list
  /\ includes "model unavailable" fallback = true
  /\ isAiResponding (app w2) = false
  /\ listening (recog w2) = false
  /\ inflight w2 = inflight w
  /\ requests (log w2) = (requests (log w) ++ [request_body t])%list
  /\ requests (log w2) = requests (log w1)
  /\ lastProcessedTranscript (app w2) = Some t.
Proof.
  intros Hs Ht Hm w1 w2 fallback.
  destruct (turn_error rev w s t 500 statusText "model unavailable"
              Hs Ht Hm eq_refl ltac:(discriminate))
    as (H1 & H2 & H3 & H4 & _ & H6 & H7).
  fold w1 in H1, H2, H3, H4, H6, H7. fold w2 in H1, H2, H3, H4, H6, H7.
  assert (Hq1 : requests (log w1) = (requests (log w) ++ [request_body t])%list).
  { unfold w1. rewrite (finalized_exec rev t w Ht).
    rewrite getAiResponse_accepted by assumption. simpl.
    autorewrite with logs. reflexivity. }
  split; [exact H6|].
  split; [reflexivity|].
  repeat (split; [assumption|]).
  split; [congruence|assumption].
Qed.

Lemma turn_model_unavailable_witness :
  let w2 := exec (run WithReply
     [CaptureFinalized "what time is it";
      FetchSettled 0 (backend_error 500 "Internal Server Error"
                        "model unavailable")]) initial_world in
  spoken (log w2)
  = ["Sorry, I encountered an error: Function Error (500): model unavailable"]
  /\ lastProcessedTranscript (app w2) = Some "what time is it"
  /\ requests (log w2) = [request_body "what time is it"].
Proof.
  pose proof (turn_model_unavailable WithReply initial_world
    {| speaking := false; queue := [] |} "what time is it"
    "Internal Server Error" eq_refl ltac:(cbv; discriminate)
    ltac:(discriminate)) as H.
  vm_compute in H. vm_compute.
  destruct H as (H1 & _ & _ & _ & _ & H6 & _ & H8).
  split; [exact H1|split; [exact H8|exact H6]].
Defined.

(** ** C6 and C7: starting a listening session *)

Lemma cleared_frame (rev : Revision) (w : World) :
  lastProcessedTranscript (app (cleared rev w)) = None
  /\ isAiResponding (app (cleared rev w)) = isAiResponding (app w)
  /\ transcript (recog (cleared rev w)) = ""
  /\ finalTranscript (recog (cleared rev w)) = ""
  /\ listening (recog (cleared rev w)) = listening (recog w)
  /\ isMicrophoneAvailable (recog (cleared rev w))
     = isMicrophoneAvailable (recog w)
  /\ synth (cleared rev w) = synth w
  /\ inflight (cleared rev w) = inflight w
  /\ log (cleared rev w) = (log w ++ [RecognitionResetTranscript])%list.
Proof.
  unfold cleared. destruct rev; repeat split; reflexivity.
Qed.

Lemma cleared_parts (rev : Revision) (w : World) :
  app (cleared rev w) = cleared_app rev (app w)
  /\ recog (cleared rev w) = cleared_recog (recog w).
Proof.
  unfold cleared. destruct rev; split; reflexivity.
Qed.

Lemma start_exec (rev : Revision) (w : World) :
  exec (handleStartListening rev) w
  = if isMicrophoneAvailable (recog w) then
      match synth w with
      | Some s =>
          with_log (fun l => (l ++ [RecognitionStart false "en-US"])%list)
            (exec (when (speaking s) synth_cancel) (cleared rev w))
      | None =>
          with_log (fun l =>
            (l ++ [Uncaught "TypeError: synth is undefined"])%list)
            (cleared rev w)
      end
    else
      exec (speak (JStr "Cannot start listening, microphone is not available."))
        (cleared rev w).
Proof.
  unfold handleStartListening, cleared.
  rewrite !exec_seq, exec_bind.
  destruct rev; simpl; destruct (isMicrophoneAvailable (recog w)); simpl;
    try reflexivity; rewrite exec_bind; simpl;
    destruct (synth w) as [s|]; try reflexivity;
    rewrite exec_seq; reflexivity.
Qed.

(** C6, as stated, fails: in a session that has answered "hello" and then
    lost the microphone, the rejected start empties the memo, the
    displayed reply and the transcript. *)
Lemma start_rejected_counterexample :
  let w := exec (run WithReply
     [CaptureFinalized "hello";
      FetchSettled 0 (backend_reply "OK" "Hi there");
      MicrophoneAvailability false]) initial_world in
  let w' := exec (handleStartListening WithReply) w in
  isMicrophoneAvailable (recog w) = false
  /\ lastProcessedTranscript (app w) = Some "hello"
  /\ lastProcessedTranscript (app w') = None
  /\ aiResponseText (app w) = JStr "Hi there"
  /\ aiResponseText (app w') = JStr ""
  /\ transcript (recog w) = "hello"
  /\ transcript (recog w') = "".
Proof.
  repeat split; reflexivity.
Qed.

(** C6, amended.  When [handleStartListening] runs while the microphone is
    reported unavailable, the fixed fallback message is spoken, no
    listening session is requested, the listening flag and the loading flag
    keep their values, and no request is sent or dropped; the memo, the
    displayed reply and the transcript have been emptied before the
    microphone is checked. *)
Theorem start_rejected_without_microphone
  (rev : Revision) (w : World) (s : SpeechSynthesis) :
  synth w = Some s ->
  isMicrophoneAvailable (recog w) = false ->
  let w' := exec (handleStartListening rev) w in
  spoken (log w')
  = (spoken (log w)
     ++ ["Cannot start listening, microphone is not available."])%list
  /\ session_starts (log w') = session_starts (log w)
  /\ listening (recog w') = listening (recog w)
  /\ isAiResponding (app w') = isAiResponding (app w)
  /\ inflight w' = inflight w
  /\ requests (log w') = requests (log w)
  /\ lastProcessedTranscript (app w') = None
  /\ aiResponseText (app (exec (handleStartListening WithReply) w)) = JStr ""
  /\ transcript (recog w') = ""
  /\ finalTranscript (recog w') = "".
Proof.
  intros Hs Hmic w'. unfold w'. rewrite !start_exec, Hmic.
  destruct (cleared_frame rev w)
    as (Cm & Ca & Ct & Cf & Cl & _ & Cs & Ci & Clog).
  rewrite Hs in Cs.
  rewrite (speak_spoken _ s
             (JStr "Cannot start listening, microphone is not available.")
             Cs eq_refl).
  destruct (cleared_frame WithReply w) as (_ & _ & _ & _ & _ & _ & Cs' & _).
  rewrite Hs in Cs'.
  rewrite (speak_spoken _ s
             (JStr "Cannot start listening, microphone is not available.")
             Cs' eq_refl).
  simpl. rewrite Clog. unfold speak_entries.
  destruct (speaking s); simpl; autorewrite with logs; simpl;
    autorewrite with logs; repeat split; assumption || reflexivity.
Qed.

Lemma start_rejected_without_microphone_witness :
  let w := exec (step WithReply (MicrophoneAvailability false)) initial_world in
  spoken (log (exec (handleStartListening WithReply) w))
  = ["Cannot start listening, microphone is not available."]
  /\ session_starts (log (exec (handleStartListening WithReply) w)) = 0.
Proof.
  pose proof (start_rejected_without_microphone WithReply
    (exec (step WithReply (MicrophoneAvailability false)) initial_world)
    {| speaking := false; queue := [] |} eq_refl eq_refl) as H.
  vm_compute in H. vm_compute.
  destruct H as (H1 & H2 & _).
  split; [exact H1|exact H2].
Defined.

(** C7.  A click on Start, with the microphone available, requests a
    listening session and leaves the engine without any utterance if it
    was speaking; the pending requests are untouched.  When one of them
    settles afterwards, whatever its outcome, exactly one text is handed to
    the engine and queued there; for a reply from the backend that text is
    the reply. *)
Theorem late_reply_is_still_spoken
  (rev : Revision) (w : World) (s : SpeechSynthesis)
  (i : nat) (o : FetchOutcome) :
  synth w = Some s ->
  isMicrophoneAvailable (recog w) = true ->
  listening (recog w) = false ->
  (i < length (inflight w))%nat ->
  let w1 := exec (step rev ClickStart) w in
  let w2 := exec (step rev (FetchSettled i o)) w1 in
  session_starts (log w1) = S (session_starts (log w))
  /\ utterances w1 = (if speaking s then [] else queue s)
  /\ is_speaking w1 = false
  /\ inflight w1 = inflight w
  /\ requests (log w1) = requests (log w)
  /\ inflight w2 = remove_nth i (inflight w)
  /\ (exists text : string,
        spoken (log w2) = (spoken (log w1) ++ [text])%list
        /\ utterances w2 = (utterances w1 ++ [text])%list)
  /\ (forall statusText reply : string,
        reply <> "" ->
        o = backend_reply statusText reply ->
        spoken (log w2) = (spoken (log w1) ++ [reply])%list).
Proof.
  intros Hs Hmic Hl Hi w1 w2.
  assert (E1 : w1 = with_log (fun l => (l ++ [RecognitionStart false "en-US"])%list)
                      (exec (when (speaking s) synth_cancel) (cleared rev w))).
  { unfold w1, step. rewrite exec_bind, exec_when. simpl.
    unfold startDisabled. rewrite Hl. simpl.
    rewrite start_exec, Hmic, Hs. reflexivity. }
  destruct (cleared_frame rev w)
    as (Cm & Ca & Ct & Cf & Cl & _ & Cs & Ci & Clog).
  rewrite Hs in Cs.
  assert (Hsy1 : synth w1
                 = Some (if speaking s then Speech.cancel s else s)).
  { rewrite E1, exec_when. destruct (speaking s); simpl; rewrite Cs; reflexivity. }
  assert (Hin1 : inflight w1 = inflight w).
  { rewrite E1, exec_when. destruct (speaking s); simpl; exact Ci. }
  assert (Hlog1 : log w1
                  = (log w ++ [RecognitionResetTranscript]
                     ++ (if speaking s then [SynthCancel] else [])
                     ++ [RecognitionStart false "en-US"])%list).
  { rewrite E1, exec_when. destruct (speaking s) eqn:Esp; simpl; rewrite Clog;
      rewrite <- ?app_assoc; reflexivity. }
  assert (Hnot : speaking (if speaking s then Speech.cancel s else s) = false).
  { destruct (speaking s) eqn:Esp; [reflexivity|exact Esp]. }
  assert (E2 : w2 = exec (getAiResponse_resume rev o)
                      (with_inflight (remove_nth i) w1)).
  { unfold w2, step. rewrite exec_bind, exec_when. simpl. rewrite Hin1.
    apply Nat.ltb_lt in Hi. rewrite Hi. rewrite exec_seq. reflexivity. }
  split; [rewrite Hlog1; destruct (speaking s); autorewrite with logs;
          simpl; lia|].
  split; [unfold utterances; rewrite Hsy1; destruct (speaking s); reflexivity|].
  split; [unfold is_speaking; rewrite Hsy1; exact Hnot|].
  split; [exact Hin1|].
  split; [rewrite Hlog1; destruct (speaking s); autorewrite with logs;
          reflexivity|].
  split.
  { rewrite E2.
    destruct (resume_frame rev o (with_inflight (remove_nth i) w1))
      as (_ & _ & _ & Hf & _).
    rewrite Hf. simpl. rewrite Hin1. reflexivity. }
  split.
  - destruct (resume_exec rev o (with_inflight (remove_nth i) w1))
      as (text & w0 & Hw & Htext & _ & _ & Hsy0 & _ & _ & Hsp0 & _).
    simpl in Hsy0, Hsp0. rewrite Hsy1 in Hsy0.
    exists (to_string text). rewrite E2, Hw.
    rewrite (speak_spoken w0 _ text Hsy0 Htext). simpl.
    unfold utterances, speak_entries, speak_engine. simpl.
    rewrite Hnot, Hsy1. autorewrite with logs. simpl. rewrite Hsp0.
    split; reflexivity.
  - intros statusText reply Hr Ho. subst o. rewrite E2.
    rewrite (resume_reply rev (with_inflight (remove_nth i) w1) _
               statusText reply Hsy1 Hr).
    assert (Htruthy : truthy (JStr reply) = true).
    { simpl. apply String.eqb_neq in Hr. rewrite Hr. reflexivity. }
    rewrite (speak_spoken _ (if speaking s then Speech.cancel s else s)
               (JStr reply));
      [|destruct rev; exact Hsy1|exact Htruthy].
    simpl. unfold speak_entries. rewrite Hnot.
    destruct rev; simpl; autorewrite with logs; simpl; reflexivity.
Qed.

Lemma late_reply_is_still_spoken_witness :
  let w := exec (run WithReply
     [CaptureFinalized "hello"; ChangeText "one moment"; ClickSpeak;
      UtteranceStart]) initial_world in
  let w1 := exec (step WithReply ClickStart) w in
  let w2 := exec (step WithReply
                    (FetchSettled 0 (backend_reply "OK" "Hi there"))) w1 in
  inflight w = ["hello"]
  /\ utterances w = ["one moment"]
  /\ utterances w1 = []
  /\ spoken (log w2) = ["one moment"; "Hi there"]
  /\ utterances w2 = ["Hi there"].
Proof.
  pose proof (late_reply_is_still_spoken WithReply
    (exec (run WithReply
       [CaptureFinalized "hello"; ChangeText "one moment"; ClickSpeak;
        UtteranceStart]) initial_world)
    {| speaking := true; queue := ["one moment"] |}
    0 (backend_reply "OK" "Hi there")
    eq_refl eq_refl eq_refl ltac:(vm_compute; lia)) as H.
  vm_compute in H. vm_compute.
  destruct H as (_ & H2 & _ & _ & _ & _ & _ & H8).
  split; [reflexivity|]. split; [reflexivity|]. split; [exact H2|].
  split; [apply (H8 "OK" "Hi there"); [discriminate|reflexivity]|reflexivity].
Defined.

(** ** C8: reset *)

Lemma reset_exec (rev : Revision) (w : World) :
  exec (handleReset rev) w
  = exec (speak (JStr "Transcript reset")) (cleared rev w).
Proof.
  unfold handleReset, cleared. rewrite !exec_seq. reflexivity.
Qed.

(** C8.  From any state, [handleReset] empties the memo and, in the
    revision that has one, the displayed reply.  A second reset right
    after the first leaves the component state (all [useState] cells and
    the memo), the values of the recognition hook and the pending requests
    exactly as the first one left them.  (The confirmation phrase is handed
    to the speech engine by each call.) *)
Theorem reset_clears_and_is_idempotent (rev : Revision) (w : World) :
  lastProcessedTranscript (app (exec (handleReset rev) w)) = None
  /\ aiResponseText (app (exec (handleReset WithReply) w)) = JStr ""
  /\ transcript (recog (exec (handleReset rev) w)) = ""
  /\ app (exec (handleReset rev) (exec (handleReset rev) w))
     = app (exec (handleReset rev) w)
  /\ recog (exec (handleReset rev) (exec (handleReset rev) w))
     = recog (exec (handleReset rev) w)
  /\ inflight (exec (handleReset rev) (exec (handleReset rev) w))
     = inflight (exec (handleReset rev) w).
Proof.
  rewrite !reset_exec.
  assert (F : forall r v,
    app (exec (speak (JStr "Transcript reset")) (cleared r v))
    = app (cleared r v)
    /\ recog (exec (speak (JStr "Transcript reset")) (cleared r v))
       = recog (cleared r v)
    /\ inflight (exec (speak (JStr "Transcript reset")) (cleared r v))
       = inflight (cleared r v)).
  { intros r v.
    destruct (speak_frame (cleared r v) (JStr "Transcript reset"))
      as (Ha & Hr & Hf & _). auto. }
  destruct (F rev w) as (A1 & R1 & I1).
  destruct (F WithReply w) as (A1' & _ & _).
  destruct (F rev (exec (speak (JStr "Transcript reset")) (cleared rev w)))
    as (A2 & R2 & I2).
  rewrite A2, R2, I2, A1, R1, I1, A1'.
  destruct (cleared_frame rev w) as (Cm & _ & Ct & _ & _ & _ & _ & Ci & _).
  split; [exact Cm|]. split; [reflexivity|]. split; [exact Ct|].
  destruct (cleared_parts rev
              (exec (speak (JStr "Transcript reset")) (cleared rev w)))
    as (Pa & Pr).
  destruct (cleared_frame rev
              (exec (speak (JStr "Transcript reset")) (cleared rev w)))
    as (_ & _ & _ & _ & _ & _ & _ & Ci2 & _).
  destruct (cleared_parts rev w) as (Pa1 & Pr1).
  rewrite Pa, Pr, Ci2, A1, R1, I1, Pa1, Pr1.
  destruct rev; repeat split; reflexivity.
Qed.

(** ** C9: the backend relays the first choice or reports an error *)

(** [completion.choices[0]?.message?.content?.trim()], read off the
    completion: the element at index 0 of [choices], its message, the
    content of that message, trimmed; [undefined] as soon as one of them is
    missing. *)
Lemma first_choice_text_spec (c : Backend.ChatCompletion) :
  Backend.first_choice_text c
  = match nth_error (Backend.choices c) 0 with
    | None => None
    | Some ch =>
        match Backend.message ch with
        | None => None
        | Some m =>
            match Backend.content m with
            | None => None
            | Some s => Some (trim s)
            end
        end
    end.
Proof.
  unfold Backend.first_choice_text.
  destruct (Backend.choices c) as [|ch rest]; reflexivity.
Qed.

(** C9.  Let a POST request with a valid transcript reach the model, and
    let the model return a completion.  If the completion has no choice at
    index 0, or that choice has no message, or the message has no content,
    or the content is empty once trimmed, the handler answers 500 (never
    200) with the body [{"error": "Received an empty response from
    OpenAI."}].  If the content of the message of the choice at index 0 is
    not empty once trimmed, the handler answers 200 with the body
    [{"response": text}], [text] being that content trimmed, whatever the
    other choices are. *)
Theorem handler_relays_or_rejects_completion
  (env : Backend.Env) (event : Backend.HandlerEvent) (t : string)
  (c : Backend.ChatCompletion) :
  Backend.api_key_configured env = true ->
  Backend.httpMethod event = "POST" ->
  Backend.read_transcript (Backend.body event) = inl t ->
  Backend.create env (Backend.chat_request env t) = Backend.CreateResolves c ->
  let r := Backend.handler env event in
  let rejected :=
    Backend.statusCode r = 500
    /\ Backend.statusCode r <> 200
    /\ Backend.responseBody r
       = JObj [("error", JStr "Received an empty response from OpenAI.")] in
  (nth_error (Backend.choices c) 0 = None -> rejected)
  /\ (forall ch : Backend.Choice,
        nth_error (Backend.choices c) 0 = Some ch ->
        Backend.message ch = None ->
        rejected)
  /\ (forall (ch : Backend.Choice) (m : Backend.Message),
        nth_error (Backend.choices c) 0 = Some ch ->
        Backend.message ch = Some m ->
        Backend.content m = None ->
        rejected)
  /\ (forall (ch : Backend.Choice) (m : Backend.Message) (s : string),
        nth_error (Backend.choices c) 0 = Some ch ->
        Backend.message ch = Some m ->
        Backend.content m = Some s ->
        trim s = "" ->
        rejected)
  /\ (forall (ch : Backend.Choice) (m : Backend.Message) (s : string),
        nth_error (Backend.choices c) 0 = Some ch ->
        Backend.message ch = Some m ->
        Backend.content m = Some s ->
        trim s <> "" ->
        Backend.statusCode r = 200
        /\ Backend.responseBody r = JObj [("response", JStr (trim s))]).
Proof.
  intros Hk Hp Ht Hc r rejected. unfold rejected, r, Backend.handler.
  rewrite Hk, Hp, Ht, Hc, first_choice_text_spec. simpl.
  split; [|split; [|split; [|split]]].
  - intros H0. rewrite H0. simpl. repeat split; discriminate.
  - intros ch H0 Hm. rewrite H0, Hm. simpl. repeat split; discriminate.
  - intros ch m H0 Hm Hn. rewrite H0, Hm, Hn. simpl.
    repeat split; discriminate.
  - intros ch m s H0 Hm Hn Hb. rewrite H0, Hm, Hn, Hb. simpl.
    repeat split; discriminate.
  - intros ch m s H0 Hm Hn Hb. rewrite H0, Hm, Hn. simpl.
    apply String.eqb_neq in Hb. rewrite Hb. simpl. split; reflexivity.
Qed.

Lemma handler_relays_or_rejects_completion_witness :
  let c := completion_of_contents
             [Some "  It is 3:45 PM. "; Some "It is late."; None] in
  trim "  It is 3:45 PM. " <> ""
  /\ Backend.statusCode
       (Backend.handler (answering_env c) (Backend.post "what time is it"))
     = 200
  /\ Backend.responseBody
       (Backend.handler (answering_env c) (Backend.post "what time is it"))
     = JObj [("response", JStr "It is 3:45 PM.")].
Proof.
  cbv zeta.
  assert (Hne : trim "  It is 3:45 PM. " <> "") by (cbv; discriminate).
  split; [exact Hne|].
  exact (proj2 (proj2 (proj2 (proj2 (handler_relays_or_rejects_completion
           (answering_env (completion_of_contents
              [Some "  It is 3:45 PM. "; Some "It is late."; None]))
           (Backend.post "what time is it") "what time is it"
           (completion_of_contents
              [Some "  It is 3:45 PM. "; Some "It is late."; None])
           eq_refl eq_refl eq_refl eq_refl))))
         {| Backend.message :=
              Some {| Backend.content := Some "  It is 3:45 PM. " |} |}
         {| Backend.content := Some "  It is 3:45 PM. " |}
         "  It is 3:45 PM. " eq_refl eq_refl eq_refl Hne).
Defined.

(** A completion whose first choice is white space only is trimmed to the
    empty text and reported as an error, whatever the later choices
    hold. *)
Example handler_blank_completion :
  Backend.statusCode
    (Backend.handler
       (answering_env (completion_of_contents [Some "   "; Some "Hi"]))
       (Backend.post "what time is it")) = 500
  /\ Backend.responseBody
       (Backend.handler
          (answering_env (completion_of_contents [Some "   "; Some "Hi"]))
          (Backend.post "what time is it"))
     = JObj [("error", JStr "Received an empty response from OpenAI.")].
Proof.
  split; reflexivity.
Qed.

(** * Further properties of the code *)

(** ** Blank utterances and the trigger of the effect *)

(** X1.  A finalized transcript that is empty or white space only is
    ignored: [getAiResponse] returns the world as it found it (no log
    line, no memo update, no request), and the whole event changes nothing
    but the values of the recognition hook. *)
Theorem blank_utterance_is_ignored
  (rev : Revision) (t : string) (w : World) :
  trim t = "" ->
  exec (getAiResponse t) w = w
  /\ app (exec (step rev (CaptureFinalized t)) w) = app w
  /\ synth (exec (step rev (CaptureFinalized t)) w) = synth w
  /\ inflight (exec (step rev (CaptureFinalized t)) w) = inflight w
  /\ log (exec (step rev (CaptureFinalized t)) w) = log w.
Proof.
  intros Hb. split; [apply getAiResponse_blank; exact Hb|].
  rewrite (finalized_blank rev t w Hb). repeat split; reflexivity.
Qed.

Lemma blank_utterance_is_ignored_witness :
  trim "  " = ""
  /\ log (exec (step WithReply (CaptureFinalized "  ")) initial_world) = [].
Proof.
  split; [reflexivity|].
  exact (proj2 (proj2 (proj2 (proj2
    (blank_utterance_is_ignored WithReply "  " initial_world eq_refl))))).
Defined.

(** X2.  The effect sends a request exactly when the hook is not
    listening and its final transcript is neither blank nor equal to the
    memo; it then records the transcript in the memo and raises the loading
    flag.  In every other case it sends nothing and leaves the component
    state and the pending requests alone. *)
Theorem effect_sends_exactly_when_new (w : World) :
  let ft := finalTranscript (recog w) in
  (listening (recog w) = false ->
   trim ft <> "" ->
   lastProcessedTranscript (app w) <> Some ft ->
   requests (log (exec effect w))
   = (requests (log w) ++ [request_body ft])%list
   /\ inflight (exec effect w) = (inflight w ++ [ft])%list
   /\ lastProcessedTranscript (app (exec effect w)) = Some ft
   /\ isAiResponding (app (exec effect w)) = true)
  /\ (listening (recog w) = true \/ trim ft = ""
      \/ lastProcessedTranscript (app w) = Some ft ->
      requests (log (exec effect w)) = requests (log w)
      /\ inflight (exec effect w) = inflight w
      /\ app (exec effect w) = app w).
Proof.
  cbv zeta. split.
  - intros Hl Ht Hm. unfold effect. rewrite !exec_bind. simpl.
    rewrite exec_when, Hl.
    pose proof (trim_nonempty _ Ht) as Hne. apply String.eqb_neq in Hne.
    rewrite Hne. simpl.
    rewrite getAiResponse_accepted by assumption. simpl.
    autorewrite with logs. repeat split; reflexivity.
  - intros H.
    destruct (listening (recog w)) eqn:Hl.
    + unfold effect. rewrite !exec_bind. simpl. rewrite exec_when, Hl. simpl.
      repeat split; reflexivity.
    + destruct H as [H|H]; [discriminate|].
      assert (G : guarded (finalTranscript (recog w)) w) by exact H.
      destruct (effect_guarded _ w G eq_refl) as (Ha & _ & _ & Hf & Hq & _).
      repeat split; assumption.
Qed.

Lemma effect_sends_exactly_when_new_witness :
  let w := with_recog (hook_finalized "hello") initial_world in
  requests (log (exec effect w)) = [request_body "hello"]
  /\ requests (log (exec effect (exec effect w))) = [request_body "hello"].
Proof.
  pose proof (effect_sends_exactly_when_new
                (with_recog (hook_finalized "hello") initial_world)) as H.
  pose proof (effect_sends_exactly_when_new
                (exec effect (with_recog (hook_finalized "hello")
                                initial_world))) as H'.
  vm_compute in H, H'. vm_compute.
  destruct H as [H _]. destruct H' as [_ H'].
  destruct (H eq_refl ltac:(discriminate) ltac:(discriminate)) as (H1 & _).
  destruct (H' (or_intror (or_intror eq_refl))) as (H2 & _).
  split; [exact H1|exact H2].
Defined.

(** ** The memo across a new session and a reset *)

Lemma start_frame (rev : Revision) (w : World) :
  lastProcessedTranscript (app (exec (handleStartListening rev) w)) = None
  /\ isAiResponding (app (exec (handleStartListening rev) w))
     = isAiResponding (app w)
  /\ inflight (exec (handleStartListening rev) w) = inflight w
  /\ requests (log (exec (handleStartListening rev) w)) = requests (log w)
  /\ spoken (log (exec (handleStartListening rev) w))
     = (spoken (log w)
        ++ (if isMicrophoneAvailable (recog w) then []
            else match synth w with
                 | Some _ =>
                     ["Cannot start listening, microphone is not available."]
                 | None => []
                 end))%list.
Proof.
  rewrite start_exec.
  destruct (cleared_frame rev w)
    as (Cm & Ca & _ & _ & _ & _ & Cs & Ci & Clog).
  destruct (isMicrophoneAvailable (recog w)).
  - destruct (synth w) as [s|] eqn:Hs.
    + rewrite exec_when. destruct (speaking s); simpl; rewrite ?Cm, ?Ca, ?Ci, Clog;
        autorewrite with logs; simpl; autorewrite with logs;
        repeat split; reflexivity.
    + simpl. rewrite Cm, Ca, Ci, Clog.
      autorewrite with logs; simpl; autorewrite with logs;
        repeat split; reflexivity.
  - destruct (synth w) as [s|] eqn:Hs.
    + rewrite (speak_spoken (cleared rev w) s
                 (JStr "Cannot start listening, microphone is not available.")
                 Cs eq_refl).
      simpl. rewrite Cm, Ca, Ci, Clog. unfold speak_entries.
      destruct (speaking s); autorewrite with logs; simpl;
        autorewrite with logs; repeat split; reflexivity.
    + rewrite (speak_refused (cleared rev w) _ (or_intror Cs)).
      simpl. rewrite Cm, Ca, Ci, Clog.
      autorewrite with logs; simpl; autorewrite with logs;
        repeat split; reflexivity.
Qed.

Lemma reset_frame (rev : Revision) (w : World) :
  lastProcessedTranscript (app (exec (handleReset rev) w)) = None
  /\ isAiResponding (app (exec (handleReset rev) w)) = isAiResponding (app w)
  /\ inflight (exec (handleReset rev) w) = inflight w
  /\ requests (log (exec (handleReset rev) w)) = requests (log w)
  /\ listening (recog (exec (handleReset rev) w)) = listening (recog w).
Proof.
  rewrite reset_exec.
  destruct (speak_frame (cleared rev w) (JStr "Transcript reset"))
    as (Ha & Hr & Hf & Hq & _).
  destruct (cleared_frame rev w)
    as (Cm & Ca & _ & _ & Cl & _ & _ & Ci & Clog).
  rewrite Ha, Hr, Hf, Hq, Cm, Ca, Ci, Cl, Clog.
  autorewrite with logs. simpl. autorewrite with logs.
  repeat split; reflexivity.
Qed.

Lemma finalized_listening (rev : Revision) (t : string) (w : World) :
  listening (recog (exec (step rev (CaptureFinalized t)) w)) = false.
Proof.
  destruct (string_dec (trim t) "") as [Hb|Hb].
  - rewrite (finalized_blank rev t w Hb). reflexivity.
  - rewrite (finalized_exec rev t w Hb).
    destruct (memo_dec (lastProcessedTranscript
                          (app (with_recog (hook_finalized t) w))) t)
      as [Hm|Hm].
    + rewrite getAiResponse_duplicate by assumption. reflexivity.
    + rewrite getAiResponse_accepted by assumption. reflexivity.
Qed.

(** The request a finalized utterance sends once the memo is empty. *)
Lemma finalized_after_clearing (rev : Revision) (t : string) (w : World) :
  trim t <> "" ->
  lastProcessedTranscript (app w) = None ->
  requests (log (exec (step rev (CaptureFinalized t)) w))
  = (requests (log w) ++ [request_body t])%list.
Proof.
  intros Ht Hm. rewrite (finalized_exec rev t w Ht).
  rewrite getAiResponse_accepted;
    [|exact Ht|simpl; rewrite Hm; discriminate].
  simpl. autorewrite with logs. reflexivity.
Qed.

Lemma run_cons (rev : Revision) (e : Event) (es : list Event) (w : World) :
  exec (run rev (e :: es)) w = exec (run rev es) (exec (step rev e) w).
Proof.
  simpl. apply exec_seq.
Qed.

Lemma run_nil (rev : Revision) (w : World) : exec (run rev []) w = w.
Proof.
  reflexivity.
Qed.

(** X3.  A click on Start Listening empties the memo whatever follows in
    the handler (rejection, missing engine or a started session), so the
    phrase that was just processed is accepted again in the next session:
    delivered once more without the click it sends nothing, delivered after
    the click it sends a second request. *)
Theorem same_phrase_accepted_after_start
  (rev : Revision) (w : World) (t interim : string) :
  trim t <> "" ->
  let w1 := exec (step rev (CaptureFinalized t)) w in
  requests (log (exec (step rev (CaptureFinalized t)) w1)) = requests (log w1)
  /\ requests (log (exec (run rev [ClickStart; CaptureListening interim;
                                   CaptureFinalized t]) w1))
     = (requests (log w1) ++ [request_body t])%list.
Proof.
  intros Ht w1. split.
  - destruct (finalized_guarded rev t w) as [G _].
    assert (K : keeps_memo t (CaptureFinalized t) = true)
      by (simpl; apply String.eqb_refl).
    destruct (step_keeps_memo rev t (CaptureFinalized t) w1 K G) as [_ H].
    exact H.
  - rewrite !run_cons, run_nil.
    assert (Hl : listening (recog w1) = false) by apply finalized_listening.
    assert (E2 : exec (step rev ClickStart) w1
                 = exec (handleStartListening rev) w1).
    { unfold step. rewrite exec_bind, exec_when. simpl.
      unfold startDisabled. rewrite Hl. reflexivity. }
    destruct (start_frame rev w1) as (Sm & _ & _ & Sq & _).
    rewrite E2.
    set (w2 := exec (handleStartListening rev) w1) in *.
    assert (E3 : exec (step rev (CaptureListening interim)) w2
                 = with_recog (hook_listening interim) w2).
    { unfold step. rewrite exec_seq. unfold effect.
      rewrite !exec_bind. reflexivity. }
    rewrite E3.
    rewrite finalized_after_clearing; [|exact Ht|exact Sm].
    simpl. rewrite Sq. reflexivity.
Qed.

Lemma same_phrase_accepted_after_start_witness :
  trim "hello" <> ""
  /\ requests (log (exec (run WithReply
       [CaptureFinalized "hello"; CaptureFinalized "hello"]) initial_world))
     = [request_body "hello"]
  /\ requests (log (exec (run WithReply
       [CaptureFinalized "hello"; ClickStart; CaptureListening "hel";
        CaptureFinalized "hello"]) initial_world))
     = [request_body "hello"; request_body "hello"].
Proof.
  assert (Ht : trim "hello" <> "") by (cbv; discriminate).
  split; [exact Ht|].
  pose proof (same_phrase_accepted_after_start WithReply initial_world
                "hello" "hel" Ht) as H.
  vm_compute in H. vm_compute. exact H.
Defined.

(** X4.  A reset, by the button or by the voice command, empties the memo
    as well: the phrase that was just processed sends a second request when
    it is finalized again after the reset. *)
Theorem same_phrase_accepted_after_reset
  (rev : Revision) (w : World) (t : string) (e : Event) :
  e = ClickReset \/ e = CommandReset ->
  trim t <> "" ->
  let w1 := exec (step rev (CaptureFinalized t)) w in
  requests (log (exec (run rev [e; CaptureFinalized t]) w1))
  = (requests (log w1) ++ [request_body t])%list
  /\ lastProcessedTranscript (app (exec (step rev e) w1)) = None.
Proof.
  intros He Ht w1. rewrite !run_cons, run_nil.
  assert (E : exec (step rev e) w1 = exec (handleReset rev) w1)
    by (destruct He; subst e; reflexivity).
  rewrite E.
  destruct (reset_frame rev w1) as (Rm & _ & _ & Rq & _).
  split; [|exact Rm].
  rewrite finalized_after_clearing; [|exact Ht|exact Rm].
  rewrite Rq. reflexivity.
Qed.

Lemma same_phrase_accepted_after_reset_witness :
  requests (log (exec (run WithReply
     [CaptureFinalized "hello"; CommandReset; CaptureFinalized "hello"])
     initial_world))
  = [request_body "hello"; request_body "hello"].
Proof.
  pose proof (same_phrase_accepted_after_reset WithReply initial_world
                "hello" CommandReset (or_intror eq_refl)
                ltac:(cbv; discriminate)) as H.
  vm_compute in H. vm_compute. exact (proj1 H).
Defined.

(** ** Every outcome of the fetch *)

Lemma resume_throws (rev : Revision) (o : FetchOutcome) (e : Thrown)
  (w : World) :
  getAiResponse_try rev o = ret (inr e) ->
  exec (getAiResponse_resume rev o) w
  = with_app (with_isAiResponding false)
      (exec (getAiResponse_catch rev e) w).
Proof.
  intros H. unfold getAiResponse_resume. rewrite H.
  rewrite exec_ret_bind, exec_seq. reflexivity.
Qed.

Lemma catch_outcome (rev : Revision) (e : Thrown) (w : World)
  (s : SpeechSynthesis) :
  synth w = Some s ->
  let w' := with_app (with_isAiResponding false)
              (exec (getAiResponse_catch rev e) w) in
  spoken (log w') = (spoken (log w) ++ [feedback_of e])%list
  /\ isAiResponding (app w') = false
  /\ lastProcessedTranscript (app w') = lastProcessedTranscript (app w)
  /\ requests (log w') = requests (log w)
  /\ inflight w' = inflight w
  /\ (rev = WithReply -> aiResponseText (app w') = JStr "").
Proof.
  intros Hs w'. unfold w'.
  unfold getAiResponse_catch.
  destruct e as [message|]; simpl feedback_of.
  - rewrite exec_seq, exec_ret_bind, exec_seq.
    rewrite (speak_spoken _ s); [|destruct rev; exact Hs|reflexivity].
    simpl. unfold speak_entries.
    destruct rev; destruct (speaking s); simpl; autorewrite with logs; simpl;
      autorewrite with logs; repeat split; try reflexivity; discriminate.
  - rewrite exec_seq, exec_bind. rewrite bind_seq. simpl fst. simpl snd.
    rewrite exec_seq.
    rewrite (speak_spoken _ s); [|destruct rev; exact Hs|reflexivity].
    simpl. unfold speak_entries.
    destruct rev; destruct (speaking s); simpl; autorewrite with logs; simpl;
      autorewrite with logs; repeat split; try reflexivity; discriminate.
Qed.

(** X5.  When the fetch itself fails, the value it rejects with decides
    the spoken fallback: for an [Error] the text "Sorry, I encountered an
    error: " followed by its message, for anything else the fixed text
    about an unknown error.  The loading flag is cleared, the displayed
    reply is emptied, the memo keeps its text and no request is sent
    again. *)
Theorem network_failure_is_spoken
  (rev : Revision) (w : World) (s : SpeechSynthesis) (e : Thrown) :
  synth w = Some s ->
  let w' := exec (getAiResponse_resume rev (FetchRejects e)) w in
  spoken (log w')
  = (spoken (log w)
     ++ [match e with
         | ThrownError message =>
             ("Sorry, I encountered an error: " ++ message)%string
         | ThrownOther =>
             "Sorry, I encountered an unknown error trying to respond."
         end])%list
  /\ isAiResponding (app w') = false
  /\ lastProcessedTranscript (app w') = lastProcessedTranscript (app w)
  /\ requests (log w') = requests (log w)
  /\ aiResponseText
       (app (exec (getAiResponse_resume WithReply (FetchRejects e)) w))
     = JStr "".
Proof.
  intros Hs w'. unfold w'.
  rewrite !(resume_throws _ (FetchRejects e) e) by reflexivity.
  destruct (catch_outcome rev e w s Hs) as (H1 & H2 & H3 & H4 & _).
  destruct (catch_outcome WithReply e w s Hs) as (_ & _ & _ & _ & _ & H6).
  repeat (split; [assumption|]). apply H6. reflexivity.
Qed.

Lemma network_failure_is_spoken_witness :
  spoken (log (exec (run WithReply
     [CaptureFinalized "hello";
      FetchSettled 0 (FetchRejects (ThrownError "Failed to fetch"))])
     initial_world))
  = ["Sorry, I encountered an error: Failed to fetch"].
Proof.
  pose proof (network_failure_is_spoken WithReply
    (with_inflight (remove_nth 0)
       (exec (step WithReply (CaptureFinalized "hello")) initial_world))
    {| speaking := false; queue := [] |}
    (ThrownError "Failed to fetch") eq_refl) as H.
  vm_compute in H. vm_compute. exact (proj1 H).
Defined.

(** X6.  A success status whose parsed body yields no truthy [response]
    is treated as an error, the loading flag is cleared and nothing is
    displayed.  When the body is an object without the field, or with an
    empty, [null], [false] or zero field, or is a string, a number, a
    boolean or an array, the fallback is "Sorry, I encountered an error:
    Received success status but no valid response field from function.".
    When the body is [null], the read of [data.response] throws, and the
    fallback carries the message of that TypeError instead. *)
Theorem malformed_success_is_spoken
  (rev : Revision) (w : World) (s : SpeechSynthesis)
  (response : Response) (data : JsValue) :
  synth w = Some s ->
  Net.ok response = true ->
  json response = JsonResolves data ->
  truthy (get_opt data "response") = false ->
  let w' := exec (getAiResponse_resume rev (FetchResolves response)) w in
  spoken (log w')
  = (spoken (log w)
     ++ [match get data "response" with
         | Some _ =>
             "Sorry, I encountered an error: Received success status but no valid response field from function."
         | None =>
             ("Sorry, I encountered an error: " ++ null_read_message)%string
         end])%list
  /\ isAiResponding (app w') = false
  /\ lastProcessedTranscript (app w') = lastProcessedTranscript (app w)
  /\ requests (log w') = requests (log w)
  /\ aiResponseText
       (app (exec (getAiResponse_resume WithReply (FetchResolves response)) w))
     = JStr "".
Proof.
  intros Hs Hok Hj Hr w'. unfold w'.
  set (e := match get data "response" with
            | Some _ =>
                ThrownError
                  "Received success status but no valid response field from function."
            | None => ThrownError null_read_message
            end).
  assert (T : forall rv, getAiResponse_try rv (FetchResolves response)
              = ret (inr e)).
  { intros rv. unfold getAiResponse_try, e. rewrite Hok, Hj. simpl.
    unfold get_opt in Hr.
    destruct (get data "response") as [r|]; [rewrite Hr|]; reflexivity. }
  rewrite !(resume_throws _ _ _ _ (T _)).
  destruct (catch_outcome rev e w s Hs) as (H1 & H2 & H3 & H4 & _).
  destruct (catch_outcome WithReply e w s Hs) as (_ & _ & _ & _ & _ & H6).
  split.
  - rewrite H1. unfold e. destruct (get data "response"); reflexivity.
  - repeat (split; [assumption|]). apply H6. reflexivity.
Qed.

Lemma malformed_success_is_spoken_witness :
  let settle := fun body : JsValue =>
    exec (getAiResponse_resume WithReply
            (FetchResolves {| status := 200; statusText := "OK";
                              json := JsonResolves body |}))
         initial_world in
  spoken (log (settle (JObj [("response", JStr "")])))
  = ["Sorry, I encountered an error: Received success status but no valid response field from function."]
  /\ spoken (log (settle JNull))
     = ["Sorry, I encountered an error: Cannot read properties of null (reading 'response')"].
Proof.
  pose proof (malformed_success_is_spoken WithReply initial_world
    {| speaking := false; queue := [] |}
    {| status := 200; statusText := "OK";
       json := JsonResolves (JObj [("response", JStr "")]) |}
    (JObj [("response", JStr "")])
    eq_refl eq_refl eq_refl eq_refl) as H1.
  pose proof (malformed_success_is_spoken WithReply initial_world
    {| speaking := false; queue := [] |}
    {| status := 200; statusText := "OK"; json := JsonResolves JNull |}
    JNull eq_refl eq_refl eq_refl eq_refl) as H2.
  vm_compute in H1, H2. vm_compute.
  split; [exact (proj1 H1)|exact (proj1 H2)].
Defined.

Lemma error_outcome
  (rev : Revision) (w : World) (s : SpeechSynthesis) (response : Response) :
  synth w = Some s ->
  Net.ok response = false ->
  let w' := exec (getAiResponse_resume rev (FetchResolves response)) w in
  spoken (log w')
  = (spoken (log w)
     ++ [("Sorry, I encountered an error: Function Error ("
          ++ string_of_nat (status response) ++ "): "
          ++ error_detail response)%string])%list
  /\ isAiResponding (app w') = false
  /\ lastProcessedTranscript (app w') = lastProcessedTranscript (app w)
  /\ requests (log w') = requests (log w).
Proof.
  intros Hs Hok w'. unfold w'.
  assert (T : getAiResponse_try rev (FetchResolves response)
              = ret (inr (ThrownError
                  ("Function Error (" ++ string_of_nat (status response)
                   ++ "): " ++ error_detail response)))).
  { unfold getAiResponse_try, error_detail, or_else. rewrite Hok. simpl.
    destruct (json response) as [e|body]; [reflexivity|].
    destruct (truthy (get_opt body "error")); reflexivity. }
  rewrite (resume_throws _ _ _ _ T).
  destruct (catch_outcome rev
              (ThrownError
                 ("Function Error (" ++ string_of_nat (status response)
                  ++ "): " ++ error_detail response)) w s Hs)
    as (H1 & H2 & H3 & H4 & _).
  split; [exact H1|]. repeat split; assumption.
Qed.

(** X7.  For a response with an error status the fallback is "Sorry, I
    encountered an error: Function Error (status): detail".  The detail is
    the [error] field of the parsed body when that field is truthy, the
    status text of the response when the body parses but has no such field,
    and the fixed text "Failed to parse error response from function." when
    the body does not parse (the status text is not used then). *)
Theorem error_status_is_spoken
  (rev : Revision) (w : World) (s : SpeechSynthesis) (response : Response) :
  synth w = Some s ->
  Net.ok response = false ->
  let w' := exec (getAiResponse_resume rev (FetchResolves response)) w in
  spoken (log w')
  = (spoken (log w)
     ++ [("Sorry, I encountered an error: Function Error ("
          ++ string_of_nat (status response) ++ "): "
          ++ error_detail response)%string])%list
  /\ isAiResponding (app w') = false
  /\ lastProcessedTranscript (app w') = lastProcessedTranscript (app w)
  /\ requests (log w') = requests (log w).
Proof.
  apply error_outcome.
Qed.

Lemma error_status_is_spoken_witness :
  let gateway := {| status := 502; statusText := "Bad Gateway";
                    json := JsonRejects (ThrownError "Unexpected token <") |} in
  let empty := {| status := 404; statusText := "Not Found";
                  json := JsonResolves (JObj []) |} in
  spoken (log (exec (getAiResponse_resume WithReply (FetchResolves gateway))
                 initial_world))
  = ["Sorry, I encountered an error: Function Error (502): Failed to parse error response from function."]
  /\ spoken (log (exec (getAiResponse_resume WithReply (FetchResolves empty))
                    initial_world))
     = ["Sorry, I encountered an error: Function Error (404): Not Found"].
Proof.
  pose proof (error_status_is_spoken WithReply initial_world
    {| speaking := false; queue := [] |}
    {| status := 502; statusText := "Bad Gateway";
       json := JsonRejects (ThrownError "Unexpected token <") |}
    eq_refl eq_refl) as H1.
  pose proof (error_status_is_spoken WithReply initial_world
    {| speaking := false; queue := [] |}
    {| status := 404; statusText := "Not Found";
       json := JsonResolves (JObj []) |}
    eq_refl eq_refl) as H2.
  vm_compute in H1, H2. vm_compute.
  split; [exact (proj1 H1)|exact (proj1 H2)].
Defined.

(** X8.  Whatever the outcome of the fetch, its continuation hands
    exactly one text to the speech engine, clears the loading flag, leaves
    the memo, the hook values and the other pending requests as they are,
    and sends no request: there is no retry on any path. *)
Theorem settlement_speaks_once_and_never_retries
  (rev : Revision) (o : FetchOutcome) (w : World) (s : SpeechSynthesis) :
  synth w = Some s ->
  let w' := exec (getAiResponse_resume rev o) w in
  (exists text : string, spoken (log w') = (spoken (log w) ++ [text])%list)
  /\ isAiResponding (app w') = false
  /\ lastProcessedTranscript (app w') = lastProcessedTranscript (app w)
  /\ recog w' = recog w
  /\ inflight w' = inflight w
  /\ requests (log w') = requests (log w)
  /\ session_starts (log w') = session_starts (log w).
Proof.
  intros Hs w'.
  destruct (resume_frame rev o w) as (Hm & Ha & Hr & Hf & Hq & Hst).
  fold w' in Hm, Ha, Hr, Hf, Hq, Hst.
  split; [|repeat split; assumption].
  destruct (resume_exec rev o w)
    as (text & w0 & Hw & Ht & _ & _ & Hsy & _ & _ & Hsp & _).
  rewrite Hs in Hsy.
  exists (to_string text). unfold w'. rewrite Hw.
  rewrite (speak_spoken w0 s text Hsy Ht). simpl.
  unfold speak_entries. destruct (speaking s); autorewrite with logs; simpl;
    rewrite Hsp; reflexivity.
Qed.

Lemma settlement_speaks_once_and_never_retries_witness :
  spoken (log (exec (getAiResponse_resume WithReply
                       (FetchRejects ThrownOther)) initial_world))
  = ["Sorry, I encountered an unknown error trying to respond."].
Proof.
  pose proof (settlement_speaks_once_and_never_retries WithReply
    (FetchRejects ThrownOther) initial_world
    {| speaking := false; queue := [] |} eq_refl) as H.
  destruct H as [[text H] _]. vm_compute in H. vm_compute.
  injection H as H. subst text. reflexivity.
Defined.

(** ** A browser without a speech engine *)

Lemma resume_reply_exec (rev : Revision) (w : World)
  (statusText reply : string) :
  reply <> "" ->
  exec (getAiResponse_resume rev (backend_reply statusText reply)) w
  = with_app (with_isAiResponding false)
      (exec (speak (JStr reply))
         (exec (setAiResponseText rev (JStr reply))
            (with_log (fun l =>
               (l ++ [Console LogLevel "AI Response received:"])%list) w))).
Proof.
  intros Hr. unfold getAiResponse_resume, getAiResponse_try, backend_reply.
  simpl. apply String.eqb_neq in Hr. rewrite Hr. simpl.
  rewrite exec_bind, !bind_seq. simpl. rewrite !exec_bind. reflexivity.
Qed.

(** X9.  Where [window.speechSynthesis] does not exist, a turn still runs
    to its end: the request is sent, the reply is displayed and the loading
    flag is cleared; [speak] only logs its warning and nothing is handed to
    an engine. *)
Theorem turn_without_engine
  (rev : Revision) (w : World) (t statusText reply : string) :
  synth w = None ->
  trim t <> "" ->
  lastProcessedTranscript (app w) <> Some t ->
  reply <> "" ->
  let turn := fun r : Revision =>
    exec (step r (FetchSettled (length (inflight w))
                    (backend_reply statusText reply)))
      (exec (step r (CaptureFinalized t)) w) in
  requests (log (turn rev)) = (requests (log w) ++ [request_body t])%list
  /\ spoken (log (turn rev)) = spoken (log w)
  /\ warnings (log (turn rev))
     = (warnings (log w)
        ++ ["Speech synthesis not available or text is empty."])%list
  /\ isAiResponding (app (turn rev)) = false
  /\ inflight (turn rev) = inflight w
  /\ aiResponseText (app (turn WithReply)) = JStr reply.
Proof.
  intros Hs Ht Hm Hr turn.
  assert (E : forall r, turn r
    = with_app (with_isAiResponding false)
        (exec (speak (JStr reply))
           (exec (setAiResponseText r (JStr reply))
              (with_log (fun l =>
                 (l ++ [Console LogLevel "AI Response received:"])%list)
                 (with_inflight (fun _ => inflight w)
                    (exec (getAiResponse t)
                       (with_recog (hook_finalized t) w))))))).
  { intros r. unfold turn. rewrite (finalized_exec r t w Ht).
    rewrite (settle_latest r _ _ (inflight w) t).
    - apply resume_reply_exec. exact Hr.
    - rewrite getAiResponse_accepted by assumption. reflexivity. }
  rewrite !E. clear E.
  rewrite getAiResponse_accepted by assumption.
  rewrite !speak_refused by (right; destruct rev; exact Hs).
  destruct rev; simpl; autorewrite with logs; simpl; autorewrite with logs;
    repeat split; reflexivity.
Qed.

Lemma turn_without_engine_witness :
  let w2 := exec (run WithReply
     [CaptureFinalized "hello"; FetchSettled 0 (backend_reply "OK" "Hi")])
     engineless_world in
  spoken (log w2) = []
  /\ aiResponseText (app w2) = JStr "Hi"
  /\ isAiResponding (app w2) = false.
Proof.
  pose proof (turn_without_engine WithReply engineless_world
    "hello" "OK" "Hi" eq_refl ltac:(cbv; discriminate)
    ltac:(discriminate) ltac:(discriminate)) as H.
  vm_compute in H. vm_compute.
  destruct H as (_ & H2 & _ & H4 & _ & H6).
  split; [exact H2|split; [exact H6|exact H4]].
Defined.

(** X10.  With the microphone available but no speech engine, a start is
    aborted by the unguarded read of [synth.speaking]: no listening session
    is requested, although the memo and the transcript are already
    emptied.  (With the microphone unavailable the same browser only gets
    the warning of [speak].) *)
Theorem start_without_engine_requests_no_session
  (rev : Revision) (w : World) :
  synth w = None ->
  isMicrophoneAvailable (recog w) = true ->
  let w' := exec (handleStartListening rev) w in
  log w' = (log w ++ [RecognitionResetTranscript;
                      Uncaught "TypeError: synth is undefined"])%list
  /\ session_starts (log w') = session_starts (log w)
  /\ lastProcessedTranscript (app w') = None
  /\ transcript (recog w') = ""
  /\ finalTranscript (recog w') = "".
Proof.
  intros Hs Hmic w'. unfold w'. rewrite start_exec, Hmic, Hs.
  destruct (cleared_frame rev w) as (Cm & _ & Ct & Cf & _ & _ & _ & _ & Clog).
  simpl. rewrite Cm, Ct, Cf, Clog.
  autorewrite with logs. simpl. autorewrite with logs.
  repeat split; reflexivity.
Qed.

Lemma start_without_engine_requests_no_session_witness :
  session_starts (log (exec (handleStartListening WithReply)
                         engineless_world)) = 0.
Proof.
  exact (proj1 (proj2 (start_without_engine_requests_no_session WithReply
                         engineless_world eq_refl eq_refl))).
Defined.

(** ** The Speak button *)

(** X11.  A click on Speak Text does nothing while the button is disabled
    (the trimmed input is empty, or an utterance is being synthesized).
    When it is enabled the input is not blank and is handed to the engine
    as typed, untrimmed; the input field keeps its text. *)
Theorem speak_button_speaks_input_verbatim
  (rev : Revision) (w : World) (s : SpeechSynthesis) :
  synth w = Some s ->
  let w' := exec (step rev ClickSpeak) w in
  (speakDisabled w = true -> w' = w)
  /\ (speakDisabled w = false ->
      trim (textToSpeak (app w)) <> ""
      /\ isSynthesizing (app w) = false
      /\ spoken (log w') = (spoken (log w) ++ [textToSpeak (app w)])%list
      /\ app w' = app w).
Proof.
  intros Hs w'. unfold w', step. rewrite exec_bind, exec_when. simpl.
  split; intros Hd; rewrite Hd; simpl; [reflexivity|].
  unfold speakDisabled in Hd. apply orb_false_iff in Hd.
  destruct Hd as [Ht Hsyn]. apply negb_false_iff in Ht. simpl in Ht.
  apply negb_true_iff, String.eqb_neq in Ht.
  pose proof (trim_nonempty _ Ht) as Hne.
  assert (Htruthy : truthy (JStr (textToSpeak (app w))) = true).
  { simpl. apply String.eqb_neq in Hne. rewrite Hne. reflexivity. }
  unfold handleSpeakInput. rewrite exec_bind. simpl.
  rewrite (speak_spoken w s _ Hs Htruthy). simpl.
  unfold speak_entries. destruct (speaking s); autorewrite with logs; simpl;
    repeat split; assumption || reflexivity.
Qed.

Lemma speak_button_speaks_input_verbatim_witness :
  spoken (log (exec (run WithReply [ChangeText " hi "; ClickSpeak])
                 initial_world)) = [" hi "]
  /\ spoken (log (exec (run WithReply [ChangeText "   "; ClickSpeak])
                    initial_world)) = [].
Proof.
  pose proof (speak_button_speaks_input_verbatim WithReply
    (exec (step WithReply (ChangeText " hi ")) initial_world)
    {| speaking := false; queue := [] |} eq_refl) as H1.
  pose proof (speak_button_speaks_input_verbatim WithReply
    (exec (step WithReply (ChangeText "   ")) initial_world)
    {| speaking := false; queue := [] |} eq_refl) as H2.
  vm_compute in H1, H2. vm_compute.
  destruct H1 as [_ H1]. destruct H2 as [H2 _].
  destruct (H1 eq_refl) as (_ & _ & H1' & _).
  split; [exact H1'|].
  exact (f_equal (fun v => spoken (log v)) (H2 eq_refl)).
Defined.

(** ** Invariants of every run *)

(** One event either sends nothing and keeps or empties the memo, or it is
    the finalization of a new, non-blank text, which is sent and
    recorded. *)
Lemma step_requests (rev : Revision) (e : Event) (w : World) :
  let w' := exec (step rev e) w in
  (requests (log w') = requests (log w)
   /\ (lastProcessedTranscript (app w') = lastProcessedTranscript (app w)
       \/ lastProcessedTranscript (app w') = None))
  \/ (exists t : string,
        e = CaptureFinalized t
        /\ trim t <> ""
        /\ requests (log w') = (requests (log w) ++ [request_body t])%list
        /\ lastProcessedTranscript (app w') = Some t).
Proof.
  cbv zeta. destruct e; unfold step; cbv beta iota.
  - (* ClickStart *)
    left. rewrite exec_bind, exec_when. simpl.
    destruct (negb (startDisabled w)); [|auto].
    destruct (start_frame rev w) as (Sm & _ & _ & Sq & _). auto.
  - (* ClickStop *)
    left. rewrite exec_bind, exec_when. simpl.
    destruct (negb (stopDisabled w)); simpl;
      autorewrite with logs; simpl; autorewrite with logs; auto.
  - (* ClickReset *)
    left. destruct (reset_frame rev w) as (Rm & _ & _ & Rq & _). auto.
  - (* ClickSpeak *)
    left. rewrite exec_bind, exec_when. simpl.
    destruct (negb (speakDisabled w)); [|auto].
    unfold handleSpeakInput. rewrite exec_bind. simpl.
    destruct (speak_frame w (JStr (textToSpeak (app w))))
      as (Ha & _ & _ & Hq & _).
    rewrite Ha, Hq. auto.
  - (* ChangeText *)
    left. auto.
  - (* CommandStop *)
    left. simpl. autorewrite with logs; simpl; autorewrite with logs; auto.
  - (* CommandReset *)
    left. destruct (reset_frame rev w) as (Rm & _ & _ & Rq & _). auto.
  - (* CaptureListening *)
    left. rewrite exec_seq. unfold effect. rewrite !exec_bind. simpl. auto.
  - (* CaptureFinalized *)
    fold (step rev (CaptureFinalized text)).
    destruct (string_dec (trim text) "") as [Hb|Hb].
    + left. rewrite (finalized_blank rev text w Hb). simpl. auto.
    + rewrite (finalized_exec rev text w Hb).
      destruct (memo_dec (lastProcessedTranscript
                            (app (with_recog (hook_finalized text) w))) text)
        as [Hm|Hm].
      * left. rewrite getAiResponse_duplicate by assumption. simpl.
        autorewrite with logs. simpl. autorewrite with logs. auto.
      * right. exists text.
        rewrite getAiResponse_accepted by assumption. simpl.
        autorewrite with logs. simpl. auto.
  - (* MicrophoneAvailability *)
    left. auto.
  - (* FetchSettled *)
    left. rewrite exec_bind, exec_when. simpl.
    destruct (i <? length (inflight w))%nat; [|auto].
    rewrite exec_seq.
    destruct (resume_frame rev o (exec (modify (with_inflight (remove_nth i))) w))
      as (Hm & _ & _ & _ & Hq & _).
    simpl in Hm, Hq. rewrite Hm, Hq. auto.
  - (* UtteranceStart *)
    left. rewrite exec_bind. simpl.
    destruct (synth w) as [s|]; [|auto].
    rewrite exec_when.
    destruct (negb (speaking s) && negb (length (queue s) =? 0)%nat); auto.
  - (* UtteranceEnd *)
    left. auto.
  - (* UtteranceError *)
    left. rewrite !exec_seq. simpl.
    autorewrite with logs; simpl; autorewrite with logs; auto.
Qed.

Lemma run_requests_well_formed
  (rev : Revision) (es : list Event) (w : World) :
  Forall well_formed_request (requests (log w)) ->
  Forall well_formed_request (requests (log (exec (run rev es) w))).
Proof.
  revert w. induction es as [|e es IH]; intros w H.
  - exact H.
  - rewrite run_cons. apply IH.
    destruct (step_requests rev e w) as [[Hq _]|(t & _ & Ht & Hq & _)];
      rewrite Hq; [exact H|].
    apply Forall_app. split; [exact H|].
    constructor; [|constructor]. exists t. split; [reflexivity|exact Ht].
Qed.

(** X12.  Along every sequence of events, each request the component
    sends has the body [{"transcript": t}] with a text [t] that is not
    blank: if the requests sent so far are of that form, so are the
    requests after the run. *)
Theorem requests_stay_well_formed
  (rev : Revision) (es : list Event) (w : World) :
  Forall well_formed_request (requests (log w)) ->
  Forall well_formed_request (requests (log (exec (run rev es) w))).
Proof.
  apply run_requests_well_formed.
Qed.

Lemma requests_stay_well_formed_witness :
  Forall well_formed_request
    (requests (log (exec (run WithReply
       [CaptureFinalized "hello"; CaptureFinalized "  ";
        CaptureFinalized "hello "; ClickReset; CaptureFinalized "hello "])
       initial_world))).
Proof.
  apply (requests_stay_well_formed WithReply _ initial_world).
  constructor.
Defined.

(** X13.  Along every sequence of events the memo stays in step with the
    requests: whenever it holds a text, that text is the transcript of the
    latest request sent.  It never holds a dropped duplicate or a blank
    text that was not sent. *)
Theorem memo_stays_latest_request
  (rev : Revision) (es : list Event) (w : World) :
  memo_matches_latest w ->
  memo_matches_latest (exec (run rev es) w).
Proof.
  revert w. induction es as [|e es IH]; intros w H.
  - exact H.
  - rewrite run_cons. apply IH. unfold memo_matches_latest in *.
    destruct (step_requests rev e w)
      as [[Hq [Hm|Hm]]|(t & _ & _ & Hq & Hm)]; rewrite Hm, ?Hq.
    + exact H.
    + exact I.
    + apply last_last.
Qed.

Lemma memo_stays_latest_request_witness :
  let w := exec (run WithReply
     [CaptureFinalized "hello"; CaptureFinalized "bye";
      FetchSettled 0 (backend_reply "OK" "Hi"); CaptureFinalized "bye"])
     initial_world in
  lastProcessedTranscript (app w) = Some "bye"
  /\ last (requests (log w)) JNull = request_body "bye".
Proof.
  pose proof (memo_stays_latest_request WithReply
    [CaptureFinalized "hello"; CaptureFinalized "bye";
     FetchSettled 0 (backend_reply "OK" "Hi"); CaptureFinalized "bye"]
    initial_world I) as H.
  unfold memo_matches_latest in H. vm_compute in H. vm_compute.
  split; [reflexivity|exact H].
Defined.

(** ** The two revisions of the component *)

Lemma erase_inv (w1 w2 : World) :
  erase w1 = erase w2 ->
  textToSpeak (app w1) = textToSpeak (app w2)
  /\ isSynthesizing (app w1) = isSynthesizing (app w2)
  /\ isAiResponding (app w1) = isAiResponding (app w2)
  /\ lastProcessedTranscript (app w1) = lastProcessedTranscript (app w2)
  /\ recog w1 = recog w2
  /\ synth w1 = synth w2
  /\ inflight w1 = inflight w2
  /\ log w1 = log w2.
Proof.
  intros H.
  pose proof (f_equal (fun w => textToSpeak (app w)) H) as H1.
  pose proof (f_equal (fun w => isSynthesizing (app w)) H) as H2.
  pose proof (f_equal (fun w => isAiResponding (app w)) H) as H3.
  pose proof (f_equal (fun w => lastProcessedTranscript (app w)) H) as H4.
  pose proof (f_equal recog H) as H5.
  pose proof (f_equal synth H) as H6.
  pose proof (f_equal inflight H) as H7.
  pose proof (f_equal log H) as H8.
  simpl in *. repeat split; assumption.
Qed.

Lemma agree_ret {A : Type} (a : A) : agree (ret a) (ret a).
Proof.
  intros w1 w2 H. simpl. auto.
Qed.

Lemma agree_bind {A B : Type} (m m' : M A) (k k' : A -> M B) :
  agree m m' ->
  (forall a : A, agree (k a) (k' a)) ->
  agree (bind m k) (bind m' k').
Proof.
  intros Hm Hk w1 w2 H. unfold bind.
  destruct (Hm w1 w2 H) as (Hv & Hw & Hr).
  destruct (m w1) as [a1 v1]. destruct (m' w2) as [a2 v2]. simpl in *.
  subst a2. destruct (Hk a1 v1 v2 Hw) as (Hv' & Hw' & Hr').
  repeat split; [exact Hv'|exact Hw'|congruence].
Qed.

Lemma agree_read {A : Type} (f : World -> A) :
  (forall w1 w2 : World, erase w1 = erase w2 -> f w1 = f w2) ->
  agree (read f) (read f).
Proof.
  intros Hf w1 w2 H. simpl. auto.
Qed.

(** A state update that neither reads nor writes the reply display. *)
Lemma agree_modify (f : World -> World) :
  (forall w : World, erase (f w) = f (erase w)) ->
  (forall w : World, aiResponseText (app (f w)) = aiResponseText (app w)) ->
  agree (modify f) (modify f).
Proof.
  intros Hc Hk w1 w2 H. simpl. repeat split; [|apply Hk].
  rewrite !Hc, H. reflexivity.
Qed.

Lemma agree_when (b : bool) (m m' : M unit) :
  agree m m' -> agree (when b m) (when b m').
Proof.
  intros H. destruct b; [exact H|apply agree_ret].
Qed.

Lemma agree_setAiResponseText (rev : Revision) (v : JsValue) :
  agree (setAiResponseText rev v) (setAiResponseText Plain v).
Proof.
  intros w1 w2 H. destruct rev; simpl; repeat split; exact H.
Qed.

Ltac agree_update :=
  apply agree_modify; intros w; destruct w as [[? ? ? ? ?] ? ? ? ?];
  reflexivity.

Ltac agree_lookup :=
  apply agree_read; intros w1 w2 H; apply erase_inv in H;
  destruct H as (H1 & H2 & H3 & H4 & H5 & H6 & H7 & H8);
  congruence.

Ltac agree_step :=
  first
    [ apply agree_ret
    | apply agree_setAiResponseText
    | apply agree_bind; [|intros ?]
    | apply agree_when
    | agree_lookup
    | agree_update ].

Lemma agree_speak (text : JsValue) : agree (speak text) (speak text).
Proof.
  unfold speak, synth_cancel, synth_speak, console, emit.
  apply agree_bind; [agree_lookup|intros sy].
  destruct (negb (truthy text)); destruct sy as [s|]; repeat agree_step.
Qed.

Lemma agree_getAiResponse (text : string) :
  agree (getAiResponse text) (getAiResponse text).
Proof.
  unfold getAiResponse, fetch, setLastProcessedTranscript, setIsAiResponding,
    console, emit.
  destruct (negb (truthy (JStr text)) || String.eqb (trim text) "");
    [apply agree_ret|].
  apply agree_bind; [agree_lookup|intros memo].
  destruct (same_as_last memo text); repeat agree_step.
Qed.

Lemma agree_resume (rev : Revision) (o : FetchOutcome) :
  agree (getAiResponse_resume rev o) (getAiResponse_resume Plain o).
Proof.
  assert (C : forall e, agree (getAiResponse_catch rev e)
                              (getAiResponse_catch Plain e)).
  { intros e. unfold getAiResponse_catch, console, emit.
    destruct e; repeat first [apply agree_speak | agree_step]. }
  unfold getAiResponse_resume, setIsAiResponding.
  apply agree_bind.
  - unfold getAiResponse_try, console, emit.
    destruct o as [e|response]; [apply agree_ret|].
    destruct (negb (ok response)); [apply agree_ret|].
    destruct (json response) as [e|data]; [apply agree_ret|].
    destruct (get data "response") as [r|]; [|apply agree_ret].
    destruct (truthy r); repeat first [apply agree_speak | agree_step].
  - intros [u|e]; repeat first [apply C | agree_step].
Qed.

Lemma agree_handleStartListening (rev : Revision) :
  agree (handleStartListening rev) (handleStartListening Plain).
Proof.
  unfold handleStartListening, resetTranscript, setLastProcessedTranscript,
    synth_cancel, emit.
  do 3 (apply agree_bind; [repeat agree_step|intros ?]).
  apply agree_bind; [agree_lookup|intros mic].
  destruct (negb mic); [apply agree_speak|].
  apply agree_bind; [agree_lookup|intros sy].
  destruct sy as [s|]; repeat agree_step.
Qed.

Lemma agree_handleReset (rev : Revision) :
  agree (handleReset rev) (handleReset Plain).
Proof.
  unfold handleReset, resetTranscript, setLastProcessedTranscript, emit.
  do 3 (apply agree_bind; [repeat agree_step|intros ?]).
  apply agree_speak.
Qed.

Lemma agree_step_event (rev : Revision) (e : Event) :
  agree (step rev e) (step Plain e).
Proof.
  destruct e; unfold step.
  - apply agree_bind; [unfold startDisabled; agree_lookup|intros off].
    apply agree_when, agree_handleStartListening.
  - apply agree_bind; [unfold stopDisabled; agree_lookup|intros off].
    apply agree_when. unfold handleStopListening, emit. agree_update.
  - apply agree_handleReset.
  - apply agree_bind; [unfold speakDisabled; agree_lookup|intros off].
    apply agree_when. unfold handleSpeakInput.
    apply agree_bind; [agree_lookup|intros t]. apply agree_speak.
  - unfold handleTextToSpeakChange, setTextToSpeak. agree_update.
  - unfold handleStopListening, emit. agree_update.
  - apply agree_handleReset.
  - apply agree_bind; [agree_update|intros _]. unfold effect.
    apply agree_bind; [agree_lookup|intros l].
    apply agree_bind; [agree_lookup|intros ft].
    apply agree_when, agree_getAiResponse.
  - apply agree_bind; [agree_update|intros _]. unfold effect.
    apply agree_bind; [agree_lookup|intros l].
    apply agree_bind; [agree_lookup|intros ft].
    apply agree_when, agree_getAiResponse.
  - agree_update.
  - apply agree_bind; [agree_lookup|intros pending].
    apply agree_when.
    apply agree_bind; [agree_update|intros _]. apply agree_resume.
  - apply agree_bind; [agree_lookup|intros sy].
    destruct sy as [s|]; [|apply agree_ret].
    apply agree_when. unfold utterance_onstart, setIsSynthesizing.
    apply agree_bind; [|intros _]; agree_update.
  - unfold utterance_onend, setIsSynthesizing.
    apply agree_bind; [|intros _]; agree_update.
  - unfold utterance_onerror, setIsSynthesizing, console, emit.
    repeat agree_step.
Qed.

Lemma agree_run (rev : Revision) (es : list Event) :
  agree (run rev es) (run Plain es).
Proof.
  induction es as [|e es IH]; simpl.
  - apply agree_ret.
  - apply agree_bind; [apply agree_step_event|intros _; exact IH].
Qed.

(** X14.  The two revisions of the component differ in the reply display
    and in nothing else.  Run on the same events from the same state, they
    produce the same log (the same console lines, requests, utterances and
    capture calls, in the same order) and end with the same engine state,
    pending requests, hook values, memo and flags; the revision without
    the display never writes the [aiResponseText] cell. *)
Theorem revisions_differ_only_in_reply_display (es : list Event) (w : World) :
  let a := exec (run WithReply es) w in
  let b := exec (run Plain es) w in
  log a = log b
  /\ synth a = synth b
  /\ inflight a = inflight b
  /\ recog a = recog b
  /\ lastProcessedTranscript (app a) = lastProcessedTranscript (app b)
  /\ isAiResponding (app a) = isAiResponding (app b)
  /\ isSynthesizing (app a) = isSynthesizing (app b)
  /\ textToSpeak (app a) = textToSpeak (app b)
  /\ aiResponseText (app b) = aiResponseText (app w).
Proof.
  cbv zeta. destruct (agree_run WithReply es w w eq_refl) as (_ & H & Hr).
  apply erase_inv in H.
  destruct H as (H1 & H2 & H3 & H4 & H5 & H6 & H7 & H8).
  unfold exec. repeat split; assumption.
Qed.

(** ** The backend: validation, status codes and failures *)

(** X15.  The transcript check accepts a request body exactly when it
    parses to an object whose [transcript] field is a string that is not
    blank, and it returns that string untrimmed. *)
Theorem read_transcript_accepts_exactly
  (b : Backend.EventBody) (t : string) :
  Backend.read_transcript b = inl t
  <-> exists v : JsValue,
        b = Backend.BodyParsed v
        /\ get v "transcript" = Some (JStr t)
        /\ trim t <> "".
Proof.
  unfold Backend.read_transcript. split.
  - intros H. destruct b as [|msg|v]; try discriminate.
    exists v. split; [reflexivity|].
    destruct (get v "transcript") as [x|]; [|discriminate].
    destruct x; try discriminate.
    rewrite guard_is_trim in H.
    destruct (String.eqb (trim s) "") eqn:E; [discriminate|].
    injection H as H. subst s. apply String.eqb_neq in E. auto.
  - intros (v & Hb & Hg & Ht). subst b. rewrite Hg.
    rewrite guard_is_trim. apply String.eqb_neq in Ht. rewrite Ht.
    reflexivity.
Qed.

(** X16.  The handler answers 200 exactly when the key is configured, the
    method is POST, the body carries a valid transcript, the model returns
    a completion, and the choice at index 0 of that completion has a
    message whose content is not empty once trimmed; the body is then
    [{"response": text}], [text] being that content trimmed, and the
    content type header is set. *)
Theorem handler_succeeds_exactly_when
  (env : Backend.Env) (event : Backend.HandlerEvent) :
  Backend.statusCode (Backend.handler env event) = 200
  <-> Backend.api_key_configured env = true
      /\ Backend.httpMethod event = "POST"
      /\ exists (t : string) (c : Backend.ChatCompletion)
                (ch : Backend.Choice) (m : Backend.Message) (s : string),
           Backend.read_transcript (Backend.body event) = inl t
           /\ Backend.create env (Backend.chat_request env t)
              = Backend.CreateResolves c
           /\ nth_error (Backend.choices c) 0 = Some ch
           /\ Backend.message ch = Some m
           /\ Backend.content m = Some s
           /\ trim s <> ""
           /\ Backend.handler env event
              = {| Backend.statusCode := 200;
                   Backend.responseBody := JObj [("response", JStr (trim s))];
                   Backend.headers :=
                     [("Content-Type", "application/json")] |}.
Proof.
  unfold Backend.handler. split.
  - intros H.
    destruct (Backend.api_key_configured env); [|discriminate].
    destruct (String.eqb (Backend.httpMethod event) "POST") eqn:Em;
      [|discriminate].
    apply String.eqb_eq in Em. split; [reflexivity|]. split; [exact Em|].
    destruct (Backend.read_transcript (Backend.body event)) as [t|e];
      [|discriminate].
    destruct (Backend.create env (Backend.chat_request env t)) as [e|c] eqn:Ec;
      [discriminate|].
    rewrite first_choice_text_spec in H.
    destruct (nth_error (Backend.choices c) 0) as [ch|] eqn:E0;
      [|discriminate].
    destruct (Backend.message ch) as [m|] eqn:E1; [|discriminate].
    destruct (Backend.content m) as [s|] eqn:E2; [|discriminate].
    simpl in H. destruct (String.eqb (trim s) "") eqn:Et; [discriminate|].
    exists t, c, ch, m, s. pose proof Et as Et'. apply String.eqb_neq in Et.
    split; [reflexivity|]. split; [exact Ec|]. split; [exact E0|].
    split; [exact E1|]. split; [exact E2|]. split; [exact Et|].
    cbv beta iota.
    rewrite ?Ec, ?first_choice_text_spec, ?E0, ?E1, ?E2. simpl.
    rewrite ?Et'. reflexivity.
  - intros (Hk & Hm & t & c & ch & m & s & Ht & Hc & H0 & H1 & H2 & Hne & _).
    rewrite Hk, Hm, Ht, Hc, first_choice_text_spec, H0, H1, H2. simpl.
    apply String.eqb_neq in Hne. rewrite Hne. reflexivity.
Qed.

Lemma handler_response_cases
  (env : Backend.Env) (event : Backend.HandlerEvent) :
  let r := Backend.handler env event in
  (Backend.statusCode r = 200 \/ Backend.statusCode r = 400
   \/ Backend.statusCode r = 405 \/ Backend.statusCode r = 500)
  /\ (Backend.statusCode r = 200
      \/ exists (v : JsValue) (rest : list (string * JsValue)),
           Backend.responseBody r = JObj (("error", v) :: rest)).
Proof.
  cbv zeta. unfold Backend.handler, Backend.on_create_error.
  destruct (Backend.api_key_configured env);
    [|simpl; split; [auto 6|right; do 2 eexists; reflexivity]].
  destruct (String.eqb (Backend.httpMethod event) "POST");
    [|simpl; split; [auto 6|right; do 2 eexists; reflexivity]].
  destruct (Backend.read_transcript (Backend.body event)) as [t|e];
    [|simpl; split; [auto 6|right; do 2 eexists; reflexivity]].
  destruct (Backend.create env (Backend.chat_request env t)) as [e|c];
    [simpl; split; [auto 6|right; do 2 eexists; reflexivity]|].
  destruct (Backend.first_choice_text c) as [text|];
    [|simpl; split; [auto 6|right; do 2 eexists; reflexivity]].
  destruct (truthy (JStr text));
    [|simpl; split; [auto 6|right; do 2 eexists; reflexivity]].
  simpl. auto.
Qed.

(** X17.  The handler answers with one of four status codes, 200, 400,
    405 or 500, and whenever the status is not 200 the first field of the
    body is [error]. *)
Theorem handler_status_codes
  (env : Backend.Env) (event : Backend.HandlerEvent) :
  let r := Backend.handler env event in
  (Backend.statusCode r = 200 \/ Backend.statusCode r = 400
   \/ Backend.statusCode r = 405 \/ Backend.statusCode r = 500)
  /\ (Backend.statusCode r = 200
      \/ exists (v : JsValue) (rest : list (string * JsValue)),
           Backend.responseBody r = JObj (("error", v) :: rest)).
Proof.
  apply handler_response_cases.
Qed.

(** X18.  With the key configured and the method POST, the handler
    answers 400 exactly when the transcript check fails: a missing body,
    text that is no JSON, a body that is [null], a missing, non-string or
    blank [transcript].  The body then carries the fixed error text and, as
    [details], the message of the failed check; the model is not
    consulted. *)
Theorem handler_rejects_invalid_body
  (env : Backend.Env) (event : Backend.HandlerEvent) :
  Backend.api_key_configured env = true ->
  Backend.httpMethod event = "POST" ->
  (Backend.statusCode (Backend.handler env event) = 400
   <-> exists error : Backend.Caught,
         Backend.read_transcript (Backend.body event) = inr error)
  /\ (forall error : Backend.Caught,
        Backend.read_transcript (Backend.body event) = inr error ->
        Backend.handler env event
        = {| Backend.statusCode := 400;
             Backend.responseBody :=
               JObj [("error",
                      JStr "Invalid request body. Expecting JSON with a 'transcript' field.");
                     ("details", Backend.caught_message error)];
             Backend.headers := [] |}).
Proof.
  intros Hk Hm. unfold Backend.handler, Backend.on_create_error.
  rewrite Hk, Hm. simpl. split.
  - split.
    + intros H.
      destruct (Backend.read_transcript (Backend.body event)) as [t|e];
        [|eauto].
      destruct (Backend.create env (Backend.chat_request env t)) as [e|c];
        [simpl in H; discriminate H|].
      destruct (Backend.first_choice_text c) as [text|];
        [|simpl in H; discriminate H].
      destruct (String.eqb text ""); simpl in H; discriminate H.
    + intros [e H]. rewrite H. reflexivity.
  - intros e H. rewrite H. reflexivity.
Qed.

Lemma handler_rejects_invalid_body_witness :
  let env := Backend.example_env (Some "Hi") in
  let blank := {| Backend.httpMethod := "POST";
                  Backend.body :=
                    Backend.BodyParsed (JObj [("transcript", JStr "  ")]) |} in
  let absent := {| Backend.httpMethod := "POST";
                   Backend.body := Backend.BodyMissing |} in
  Backend.statusCode (Backend.handler env blank) = 400
  /\ Backend.responseBody (Backend.handler env absent)
     = JObj [("error",
              JStr "Invalid request body. Expecting JSON with a 'transcript' field.");
             ("details", JStr "Request body is missing.")].
Proof.
  cbv zeta. split.
  - apply (proj1 (handler_rejects_invalid_body
       (Backend.example_env (Some "Hi"))
       {| Backend.httpMethod := "POST";
          Backend.body :=
            Backend.BodyParsed (JObj [("transcript", JStr "  ")]) |}
       eq_refl eq_refl)).
    eexists. reflexivity.
  - rewrite (proj2 (handler_rejects_invalid_body
       (Backend.example_env (Some "Hi"))
       {| Backend.httpMethod := "POST";
          Backend.body := Backend.BodyMissing |}
       eq_refl eq_refl) _ eq_refl).
    reflexivity.
Defined.

(** X19.  The prerequisites come first.  Without a configured key every
    request, whatever its method and body, gets 500 "OpenAI API key not
    configured."; with a key, every request whose method is not POST gets
    405 with the header [Allow: POST], whatever its body.  In both cases
    the answer does not depend on the model. *)
Theorem handler_checks_prerequisites_first
  (env : Backend.Env) (event : Backend.HandlerEvent) :
  (Backend.api_key_configured env = false ->
   Backend.handler env event
   = {| Backend.statusCode := 500;
        Backend.responseBody :=
          JObj [("error", JStr "OpenAI API key not configured.")];
        Backend.headers := [] |})
  /\ (Backend.api_key_configured env = true ->
      Backend.httpMethod event <> "POST" ->
      Backend.handler env event
      = {| Backend.statusCode := 405;
           Backend.responseBody :=
             JObj [("error", JStr "Please use the POST method.")];
           Backend.headers := [("Allow", "POST")] |}).
Proof.
  unfold Backend.handler. split.
  - intros Hk. rewrite Hk. reflexivity.
  - intros Hk Hm. rewrite Hk. apply String.eqb_neq in Hm. rewrite Hm.
    reflexivity.
Qed.

Lemma handler_checks_prerequisites_first_witness :
  Backend.statusCode
    (Backend.handler (Backend.example_env (Some "Hi"))
       {| Backend.httpMethod := "GET"; Backend.body := Backend.BodyMissing |})
  = 405.
Proof.
  rewrite (proj2 (handler_checks_prerequisites_first
     (Backend.example_env (Some "Hi"))
     {| Backend.httpMethod := "GET"; Backend.body := Backend.BodyMissing |})
     eq_refl ltac:(discriminate)).
  reflexivity.
Defined.

(** X20.  When the call to the model fails, the handler answers 500.
    For a thrown value with a truthy [response] it reports "OpenAI API
    Error: " followed by [response.data.error.message] when that is truthy
    and by the message of the thrown value otherwise.  For a thrown value
    without a truthy [response] it reports the value's own message when
    the value is an [Error], and the fixed text "Failed to get response
    from AI." when it is not. *)
Theorem handler_reports_model_failure
  (env : Backend.Env) (event : Backend.HandlerEvent) (t : string)
  (error : Backend.Caught) :
  Backend.api_key_configured env = true ->
  Backend.httpMethod event = "POST" ->
  Backend.read_transcript (Backend.body event) = inl t ->
  Backend.create env (Backend.chat_request env t)
  = Backend.CreateRejects error ->
  let r := Backend.handler env event in
  let apiMessage :=
    get_opt (get_opt (get_opt (Backend.caught_response error) "data")
                     "error") "message" in
  Backend.statusCode r = 500
  /\ (truthy (Backend.caught_response error) = true ->
      truthy apiMessage = true ->
      Backend.responseBody r
      = JObj [("error",
               JStr ("OpenAI API Error: " ++ to_string apiMessage))])
  /\ (truthy (Backend.caught_response error) = true ->
      truthy apiMessage = false ->
      Backend.responseBody r
      = JObj [("error",
               JStr ("OpenAI API Error: "
                     ++ to_string (Backend.caught_message error)))])
  /\ (truthy (Backend.caught_response error) = false ->
      Backend.caught_is_error error = true ->
      Backend.responseBody r
      = JObj [("error", Backend.caught_message error)])
  /\ (truthy (Backend.caught_response error) = false ->
      Backend.caught_is_error error = false ->
      Backend.responseBody r
      = JObj [("error", JStr "Failed to get response from AI.")]).
Proof.
  intros Hk Hm Ht Hc r apiMessage.
  unfold apiMessage, r, Backend.handler, Backend.on_create_error.
  rewrite Hk, Hm, Ht, Hc. simpl.
  split; [reflexivity|]. split; [|split; [|split]].
  - intros Hr Hg. rewrite Hr. unfold or_else. rewrite Hg. reflexivity.
  - intros Hr Hg. rewrite Hr. unfold or_else. rewrite Hg. reflexivity.
  - intros Hr He. rewrite Hr, He. reflexivity.
  - intros Hr He. rewrite Hr, He. reflexivity.
Qed.

Lemma handler_reports_model_failure_witness :
  Backend.responseBody
    (Backend.handler
       (failing_env (api_error "Request failed with status code 429"
                               "Rate limit reached"))
       (Backend.post "hello"))
  = JObj [("error", JStr "OpenAI API Error: Rate limit reached")]
  /\ Backend.responseBody
       (Backend.handler
          (failing_env (bare_api_error "Request failed with status code 502"))
          (Backend.post "hello"))
     = JObj [("error",
              JStr "OpenAI API Error: Request failed with status code 502")]
  /\ Backend.responseBody
       (Backend.handler
          (failing_env (Backend.new_Error "connect ETIMEDOUT"))
          (Backend.post "hello"))
     = JObj [("error", JStr "connect ETIMEDOUT")].
Proof.
  split; [|split].
  - exact (proj1 (proj2 (handler_reports_model_failure
      (failing_env (api_error "Request failed with status code 429"
                              "Rate limit reached"))
      (Backend.post "hello") "hello"
      (api_error "Request failed with status code 429" "Rate limit reached")
      eq_refl eq_refl eq_refl eq_refl)) eq_refl eq_refl).
  - exact (proj1 (proj2 (proj2 (handler_reports_model_failure
      (failing_env (bare_api_error "Request failed with status code 502"))
      (Backend.post "hello") "hello"
      (bare_api_error "Request failed with status code 502")
      eq_refl eq_refl eq_refl eq_refl))) eq_refl eq_refl).
  - exact (proj1 (proj2 (proj2 (proj2 (handler_reports_model_failure
      (failing_env (Backend.new_Error "connect ETIMEDOUT"))
      (Backend.post "hello") "hello"
      (Backend.new_Error "connect ETIMEDOUT")
      eq_refl eq_refl eq_refl eq_refl)))) eq_refl eq_refl).
Defined.

(** ** The component and the backend together *)

Lemma read_transcript_of_request (t : string) :
  trim t <> "" ->
  Backend.read_transcript (Backend.BodyParsed (request_body t)) = inl t.
Proof.
  intros Ht. unfold Backend.read_transcript, request_body.
  change (get (JObj [("transcript", JStr t)]) "transcript")
    with (Some (JStr t)).
  cbv beta iota.
  rewrite guard_is_trim. apply String.eqb_neq in Ht. rewrite Ht.
  reflexivity.
Qed.

(** X21.  The component and the function test the transcript the same
    way, so the function never rejects what the component sends: along
    every run from the mounted state, each request body in the log passes
    the transcript check of the handler, which reads back the text that was
    sent. *)
Theorem component_requests_pass_validation
  (rev : Revision) (es : list Event) :
  Forall (fun b : JsValue =>
            exists t : string,
              b = request_body t
              /\ Backend.read_transcript (Backend.BodyParsed b) = inl t)
         (requests (log (exec (run rev es) initial_world))).
Proof.
  assert (H : Forall well_formed_request
                (requests (log (exec (run rev es) initial_world))))
    by (apply run_requests_well_formed; constructor).
  eapply Forall_impl; [|exact H].
  intros b (t & Hb & Ht). exists t. split; [exact Hb|].
  subst b. apply read_transcript_of_request. exact Ht.
Qed.

(** X22.  One turn through the function: the component sends the
    utterance, the handler receives it as a POST with that body, the model
    returns a completion whose choice at index 0 has a message with a
    content that is not empty once trimmed, and the handler's response
    comes back.  The component then speaks exactly that content trimmed,
    displays it and is idle again. *)
Theorem end_to_end_reply
  (rev : Revision) (w : World) (s : SpeechSynthesis)
  (env : Backend.Env) (t statusText content : string)
  (c : Backend.ChatCompletion) (ch : Backend.Choice) (m : Backend.Message) :
  synth w = Some s ->
  trim t <> "" ->
  lastProcessedTranscript (app w) <> Some t ->
  Backend.api_key_configured env = true ->
  Backend.create env (Backend.chat_request env t) = Backend.CreateResolves c ->
  nth_error (Backend.choices c) 0 = Some ch ->
  Backend.message ch = Some m ->
  Backend.content m = Some content ->
  trim content <> "" ->
  let turn := fun r : Revision =>
    exec (step r (FetchSettled (length (inflight w))
                    (over_http statusText
                       (Backend.handler env (Backend.post t)))))
      (exec (step r (CaptureFinalized t)) w) in
  spoken (log (turn rev)) = (spoken (log w) ++ [trim content])%list
  /\ isAiResponding (app (turn rev)) = false
  /\ lastProcessedTranscript (app (turn rev)) = Some t
  /\ aiResponseText (app (turn WithReply)) = JStr (trim content).
Proof.
  intros Hs Ht Hm Hk Hc H0 H1 H2 Hne turn.
  assert (E : over_http statusText (Backend.handler env (Backend.post t))
              = backend_reply statusText (trim content)).
  { unfold over_http, Backend.handler, backend_reply. rewrite Hk.
    change (Backend.httpMethod (Backend.post t)) with "POST".
    change (Backend.body (Backend.post t))
      with (Backend.BodyParsed (request_body t)).
    rewrite (read_transcript_of_request t Ht), Hc.
    rewrite first_choice_text_spec, H0, H1, H2. simpl.
    pose proof Hne as Hne'. apply String.eqb_neq in Hne'. rewrite Hne'.
    reflexivity. }
  unfold turn. rewrite E.
  destruct (turn_reply rev w s t statusText (trim content) Hs Ht Hm Hne)
    as (_ & _ & H3 & _ & _ & H6 & _ & H8 & _).
  destruct (turn_reply WithReply w s t statusText (trim content) Hs Ht Hm Hne)
    as (_ & _ & _ & _ & _ & _ & H7 & _).
  repeat (split; [assumption|]). apply H7. reflexivity.
Qed.

Lemma end_to_end_reply_witness :
  let c := completion_of_contents
             [Some "  It is 3:45 PM. "; Some "It is late."] in
  let w2 := exec (run WithReply
     [CaptureFinalized "what time is it";
      FetchSettled 0
        (over_http "OK"
           (Backend.handler (answering_env c)
                            (Backend.post "what time is it")))])
     initial_world in
  spoken (log w2) = ["It is 3:45 PM."]
  /\ aiResponseText (app w2) = JStr "It is 3:45 PM.".
Proof.
  pose proof (end_to_end_reply WithReply initial_world
    {| speaking := false; queue := [] |}
    (answering_env (completion_of_contents
       [Some "  It is 3:45 PM. "; Some "It is late."]))
    "what time is it" "OK" "  It is 3:45 PM. "
    (completion_of_contents [Some "  It is 3:45 PM. "; Some "It is late."])
    {| Backend.message :=
         Some {| Backend.content := Some "  It is 3:45 PM. " |} |}
    {| Backend.content := Some "  It is 3:45 PM. " |}
    eq_refl ltac:(cbv; discriminate) ltac:(discriminate)
    eq_refl eq_refl eq_refl eq_refl eq_refl
    ltac:(cbv; discriminate)) as H.
  vm_compute in H. vm_compute.
  destruct H as (H1 & _ & _ & H4). split; [exact H1|exact H4].
Defined.

(** X23.  Every failure of the function reaches the user as speech: when
    the handler answers with a status other than 200, the component speaks
    "Sorry, I encountered an error: Function Error (status): " followed by
    the [error] field of the handler's body (or by the status text, should
    that field be empty), clears the loading flag and sends nothing
    again. *)
Theorem end_to_end_failure
  (rev : Revision) (w : World) (s : SpeechSynthesis)
  (env : Backend.Env) (event : Backend.HandlerEvent) (statusText : string) :
  synth w = Some s ->
  Backend.statusCode (Backend.handler env event) <> 200 ->
  let r := Backend.handler env event in
  let w' := exec (getAiResponse_resume rev (over_http statusText r)) w in
  exists (v : JsValue) (rest : list (string * JsValue)),
    Backend.responseBody r = JObj (("error", v) :: rest)
    /\ spoken (log w')
       = (spoken (log w)
          ++ [("Sorry, I encountered an error: Function Error ("
               ++ string_of_nat (Backend.statusCode r) ++ "): "
               ++ (if truthy v then to_string v else statusText))%string])%list
    /\ isAiResponding (app w') = false
    /\ requests (log w') = requests (log w).
Proof.
  intros Hs Hne r w'.
  destruct (handler_response_cases env event) as [Hcode Hbody].
  fold r in Hcode, Hbody, Hne.
  destruct Hbody as [H200|(v & rest & Hb)]; [contradiction|].
  exists v, rest. split; [exact Hb|].
  assert (Hok : Net.ok {| status := Backend.statusCode r;
                          statusText := statusText;
                          json := JsonResolves (Backend.responseBody r) |}
                = false).
  { unfold Net.ok. simpl.
    destruct Hcode as [H|[H|[H|H]]]; [contradiction| | |];
      rewrite H; reflexivity. }
  destruct (error_outcome rev w s _ Hs Hok) as (H1 & H2 & _ & H4).
  unfold w', over_http. split; [|split; assumption].
  rewrite H1. unfold error_detail. simpl. rewrite Hb. simpl. reflexivity.
Qed.

Lemma end_to_end_failure_witness :
  spoken (log (exec (run WithReply
     [CaptureFinalized "hello";
      FetchSettled 0
        (over_http "Internal Server Error"
           (Backend.handler keyless_env (Backend.post "hello")))])
     initial_world))
  = ["Sorry, I encountered an error: Function Error (500): OpenAI API key not configured."].
Proof.
  pose proof (end_to_end_failure WithReply
    (with_inflight (remove_nth 0)
       (exec (step WithReply (CaptureFinalized "hello")) initial_world))
    {| speaking := false; queue := [] |}
    keyless_env (Backend.post "hello") "Internal Server Error"
    eq_refl ltac:(discriminate)) as H.
  destruct H as (v & rest & Hb & Hsp & _).
  vm_compute in Hb. injection Hb as Hv Hrest. subst v rest.
  vm_compute in Hsp. vm_compute. exact Hsp.
Defined.

(** ** A started session *)

(** X24.  With the microphone available and a speech engine present,
    [handleStartListening] empties the transcript, the memo and the
    displayed reply, cancels the engine if it is speaking, and requests one
    listening session that is not continuous and uses the language en-US.
    It speaks nothing, sends nothing and leaves the loading flag and the
    pending requests alone. *)
Theorem start_requests_one_shot_session
  (rev : Revision) (w : World) (s : SpeechSynthesis) :
  synth w = Some s ->
  isMicrophoneAvailable (recog w) = true ->
  let w' := exec (handleStartListening rev) w in
  log w'
  = (log w ++ [RecognitionResetTranscript]
     ++ (if speaking s then [SynthCancel] else [])
     ++ [RecognitionStart false "en-US"])%list
  /\ utterances w' = (if speaking s then [] else queue s)
  /\ lastProcessedTranscript (app w') = None
  /\ aiResponseText (app (exec (handleStartListening WithReply) w)) = JStr ""
  /\ transcript (recog w') = ""
  /\ finalTranscript (recog w') = ""
  /\ isAiResponding (app w') = isAiResponding (app w)
  /\ inflight w' = inflight w.
Proof.
  intros Hs Hmic w'. unfold w'. rewrite !start_exec, Hmic, Hs.
  destruct (cleared_frame rev w)
    as (Cm & Ca & Ct & Cf & _ & _ & Cs & Ci & Clog).
  rewrite Hs in Cs. rewrite !exec_when. unfold utterances.
  destruct (speaking s); simpl; rewrite ?Cm, ?Ca, ?Ct, ?Cf, ?Cs, ?Ci, Clog;
    rewrite <- ?app_assoc; simpl;
    destruct rev; repeat split; reflexivity.
Qed.

Lemma start_requests_one_shot_session_witness :
  log (exec (handleStartListening WithReply) speaking_world)
  = (log speaking_world
     ++ [RecognitionResetTranscript; SynthCancel;
         RecognitionStart false "en-US"])%list
  /\ utterances (exec (handleStartListening WithReply) speaking_world) = [].
Proof.
  pose proof (start_requests_one_shot_session WithReply speaking_world
    {| speaking := true; queue := ["first"; "second"] |}
    eq_refl eq_refl) as H.
  vm_compute in H. vm_compute.
  destruct H as (H1 & H2 & _). split; [exact H1|exact H2].
Defined.
